(** * OpusHeader: parsing, writing and splitting the Opus identification header

    A shallow embedding of [media/libstagefright/foundation/OpusHeader.cpp]
    and the properties of its four entry points:

    - [ParseOpusHeader]      (buffer -> header record),
    - [WriteOpusHeader]      (header record -> buffer),
    - [WriteOpusHeaders]     (header + codec delay + seek pre-roll -> unified CSD),
    - [GetOpusHeaderBuffers] (unified CSD -> three views).

    Conventions of the embedding.

    - C++ integers are [Z]; every conversion the C++ performs (to [uint8_t],
      [uint16_t], [int16_t], [uint32_t], [int], [size_t]) is written out.
    - A pointer argument ([data], [output]) is the memory it points to, a
      function from byte offsets to byte values; the size argument is a
      separate number, exactly as in the C++ signatures.  Nothing in the model
      knows how large the allocation behind a pointer really is.
    - Every access through such a pointer is recorded in a trace, so that
      "reads no byte at offset ..." and "writes no byte at offset ..." are
      statements about the trace.  ALOGV/ALOGE/ALOGD calls are recorded too.
    - A read outside the constant table [kOpusChannelMap] is undefined
      behaviour in C++; the model has no result there ([None]).
    - [memcpy] from the address of an integer copies its object
      representation; the model fixes a little-endian host (all Android ABIs). *)

From Stdlib Require Import String Ascii ZArith List Lia Bool.
Import ListNotations.
Local Open Scope Z_scope.

(** ** C integer conversions *)

Module CInt.

Definition to_uint8 (x : Z) : Z := x mod 2 ^ 8.
Definition to_uint16 (x : Z) : Z := x mod 2 ^ 16.
Definition to_uint32 (x : Z) : Z := x mod 2 ^ 32.
Definition to_size_t (x : Z) : Z := x mod 2 ^ 64.

(** Conversion to a signed type of [w] bits (two's complement). *)
Definition to_signed (w : Z) (x : Z) : Z :=
  let u := x mod 2 ^ w in
  if u <? 2 ^ (w - 1) then u else u - 2 ^ w.

Definition to_int16 (x : Z) : Z := to_signed 16 x.
Definition to_int (x : Z) : Z := to_signed 32 x.

(** The value of a C++ [bool] used as an integer. *)
Definition of_bool (b : bool) : Z := if b then 1 else 0.

(** The first [n] bytes of the object representation of the integer [v]
    on a little-endian host: what [memcpy(dst, &v, n)] copies. *)
Fixpoint le_bytes (n : nat) (v : Z) : list Z :=
  match n with
  | O => []
  | S n' => v mod 256 :: le_bytes n' (v / 256)
  end.

(** The unsigned value of a little-endian byte sequence. *)
Fixpoint le_value (bs : list Z) : Z :=
  match bs with
  | [] => 0
  | b :: bs' => b + 256 * le_value bs'
  end.

(** The bytes of a string literal. *)
Definition bytes_of_string (s : string) : list Z :=
  map (fun c => Z.of_nat (nat_of_ascii c)) (list_ascii_of_string s).

End CInt.
Import CInt.

(** ** Memory, traces and the monad of the embedding *)

(** The bytes behind a pointer, by offset from it. *)
Definition mem : Type := Z -> Z.

Definition upd (m : mem) (off v : Z) : mem :=
  fun j => if j =? off then v else m j.

(** [n] consecutive bytes of [m] from [off]. *)
Fixpoint bytes_at (m : mem) (off : Z) (n : nat) : list Z :=
  match n with
  | O => []
  | S n' => m off :: bytes_at m (off + 1) n'
  end.

(** The messages the code logs, one for each [return] of a failure.  ALOGV is
    compiled out unless LOG_NDEBUG is 0; the trace records the call all the
    same, which tells the failing [return] statements apart. *)
Inductive message : Type :=
| HeaderSizeTooSmall            (* "Header size is too small." *)
| BadChannelCount (channels : Z)(* "Invalid Header, bad channel count: %d" *)
| MissingStreamMap              (* "Invalid Header, missing stream map." *)
| InsufficientStreamMapData (channels : Z)
   (* "Invalid stream map; insufficient data for current channel count: %d" *)
| InconsistentChannelMapping    (* "Inconsistent channel mapping." *)
| OutputBufferTooSmall          (* "Output buffer too small for header." *)
| UnifiedBufferTooSmall         (* "Buffer not large enough to hold unified OPUS CSD" *)
| WriteOpusHeaderFailed         (* "WriteOpusHeader failed" *)
| NoRoomForDelayAndPreRoll.
   (* "Buffer not large enough to hold codec delay and seek pre roll" *)

(** What a call does besides computing: reads through the input pointer,
    writes through the output pointer, log messages. *)
Inductive event : Type :=
| Read (off : Z)
| Write (off : Z)
| Compare (off len : Z)   (* memcmp over the [len] bytes from [off] *)
| Log (m : message).

Definition trace : Type := list event.

Definition read_offsets (t : trace) : list Z :=
  flat_map (fun e => match e with Read o => [o] | _ => [] end) t.

Definition write_offsets (t : trace) : list Z :=
  flat_map (fun e => match e with Write o => [o] | _ => [] end) t.

Definition compared_offsets (t : trace) : list Z :=
  flat_map (fun e => match e with Compare o _ => [o] | _ => [] end) t.

(** The byte ranges compared: first offset and length. *)
Definition compared_ranges (t : trace) : list (Z * Z) :=
  flat_map (fun e => match e with Compare o n => [(o, n)] | _ => [] end) t.

Definition messages (t : trace) : list message :=
  flat_map (fun e => match e with Log m => [m] | _ => [] end) t.

(** A computation over a mutable state [S] that extends a trace and may have
    no defined result. *)
Definition M (S A : Type) : Type := S -> trace -> option (A * S * trace).

Definition ret {S A} (a : A) : M S A := fun s t => Some (a, s, t).

Definition bind {S A B} (c : M S A) (k : A -> M S B) : M S B :=
  fun s t =>
    match c s t with
    | Some (a, s', t') => k a s' t'
    | None => None
    end.

Declare Scope monad_scope.
Delimit Scope monad_scope with monad.
Notation "x <- c ;; k" := (bind c (fun x => k))
  (at level 61, c at next level, right associativity) : monad_scope.
Notation "c ;; k" := (bind c (fun _ => k))
  (at level 61, right associativity) : monad_scope.
Local Open Scope monad_scope.

Definition modify {S} (f : S -> S) : M S unit := fun s t => Some (tt, f s, t).
Definition emit {S} (e : event) : M S unit := fun s t => Some (tt, s, t ++ [e]).
Definition undefined {S A} : M S A := fun _ _ => None.

(** ALOGV, ALOGE and ALOGD differ in severity only. *)
Definition ALOG {S} (m : message) : M S unit := emit (Log m).

(** [data[off]] for a pointer to constant input. *)
Definition load {S} (data : mem) (off : Z) : M S Z :=
  emit (Read off) ;; ret (data off).

(** [output[off] = v] for the output pointer, which is the state. *)
Definition store (off v : Z) : M mem unit :=
  emit (Write off) ;; modify (fun m => upd m off v).

(** [body i0; body (i0 + 1); ...], [n] times: a counted [for] loop. *)
Fixpoint for_loop {S} (n : nat) (i : Z) (body : Z -> M S unit) : M S unit :=
  match n with
  | O => ret tt
  | S n' => body i ;; for_loop n' (i + 1) body
  end.

(** [memcpy(output + off, src, length src)]. *)
Fixpoint memcpy (off : Z) (src : list Z) : M mem unit :=
  match src with
  | [] => ret tt
  | b :: src' => store off b ;; memcpy (off + 1) src'
  end.

(** [memset(output, v, n)]. *)
Definition memset (v : Z) (n : Z) : M mem unit :=
  for_loop (Z.to_nat n) 0 (fun i => store i v).

(** Whether the bytes of [data] from [off] are those of [pat]. *)
Fixpoint bytes_match (data : mem) (off : Z) (pat : list Z) : bool :=
  match pat with
  | [] => true
  | b :: pat' => (data off =? b) && bytes_match data (off + 1) pat'
  end.

(** [!memcmp(data + off, pat, n)], for a literal [pat] of at least [n] bytes. *)
Definition memcmp_eq {S} (data : mem) (off : Z) (pat : list Z) (n : Z) : M S bool :=
  emit (Compare off n) ;; ret (bytes_match data off (firstn (Z.to_nat n) pat)).

(** ** Constants of OpusHeader.cpp *)

Definition kMaxChannels : Z := 8.

(** The rows of the C++ array are brace-initialised, so each is padded with
    zeros to [kMaxChannels] entries. *)
Definition kOpusChannelMap : list (list Z) :=
  [ [0; 0; 0; 0; 0; 0; 0; 0];
    [0; 1; 0; 0; 0; 0; 0; 0];
    [0; 2; 1; 0; 0; 0; 0; 0];
    [0; 1; 2; 3; 0; 0; 0; 0];
    [0; 4; 1; 2; 3; 0; 0; 0];
    [0; 4; 1; 2; 3; 5; 0; 0];
    [0; 4; 1; 2; 3; 5; 6; 0];
    [0; 6; 1; 2; 3; 4; 5; 7] ].

(** [kOpusChannelMap[r][c]]; outside the array the C++ read is undefined. *)
Definition channel_map_at (r c : Z) : option Z :=
  if (r <? 0) || (c <? 0) then None
  else match nth_error kOpusChannelMap (Z.to_nat r) with
       | Some row => nth_error row (Z.to_nat c)
       | None => None
       end.

Definition kOpusHeaderSize : Z := 19.
Definition kOpusHeaderLabelOffset : Z := 0.
Definition kOpusHeaderVersionOffset : Z := 8.
Definition kOpusHeaderChannelsOffset : Z := 9.
Definition kOpusHeaderSkipSamplesOffset : Z := 10.
Definition kOpusHeaderSampleRateOffset : Z := 12.
Definition kOpusHeaderGainOffset : Z := 16.
Definition kOpusHeaderChannelMappingOffset : Z := 18.
Definition kOpusHeaderNumStreamsOffset : Z := 19.
Definition kOpusHeaderNumCoupledStreamsOffset : Z := 20.
Definition kOpusHeaderStreamMapOffset : Z := 21.
Definition kMaxChannelsWithDefaultLayout : Z := 2.

(** ** The header record *)

(** Modelled from the spec: [struct OpusHeader] is declared in OpusHeader.h,
    which is not among the sources.  The fields are those the functions of
    OpusHeader.cpp access; their ranges are the ones of the data model
    ([channels] an integer, [skip_samples] unsigned 16-bit, [gain_db] signed
    16-bit, [channel_mapping], [num_streams], [num_coupled] unsigned 8-bit,
    [stream_map] an array of [kMaxChannels] bytes).  The functions below
    convert on every access, so they do not depend on these ranges. *)
Record OpusHeader : Type := mkOpusHeader {
  channels : Z;
  channel_mapping : Z;
  num_streams : Z;
  num_coupled : Z;
  gain_db : Z;
  skip_samples : Z;
  stream_map : list Z
}.

Definition set_channels (v : Z) (h : OpusHeader) : OpusHeader :=
  mkOpusHeader v (channel_mapping h) (num_streams h) (num_coupled h)
               (gain_db h) (skip_samples h) (stream_map h).
Definition set_channel_mapping (v : Z) (h : OpusHeader) : OpusHeader :=
  mkOpusHeader (channels h) v (num_streams h) (num_coupled h)
               (gain_db h) (skip_samples h) (stream_map h).
Definition set_num_streams (v : Z) (h : OpusHeader) : OpusHeader :=
  mkOpusHeader (channels h) (channel_mapping h) v (num_coupled h)
               (gain_db h) (skip_samples h) (stream_map h).
Definition set_num_coupled (v : Z) (h : OpusHeader) : OpusHeader :=
  mkOpusHeader (channels h) (channel_mapping h) (num_streams h) v
               (gain_db h) (skip_samples h) (stream_map h).
Definition set_gain_db (v : Z) (h : OpusHeader) : OpusHeader :=
  mkOpusHeader (channels h) (channel_mapping h) (num_streams h) (num_coupled h)
               v (skip_samples h) (stream_map h).
Definition set_skip_samples (v : Z) (h : OpusHeader) : OpusHeader :=
  mkOpusHeader (channels h) (channel_mapping h) (num_streams h) (num_coupled h)
               (gain_db h) v (stream_map h).

(** [l[i] = v] on an array held as a list; an index outside the array leaves
    it as it is (the C++ store would be out of bounds; [ParseOpusHeader] only
    stores below [channels <= kMaxChannels]). *)
Fixpoint list_set (i : nat) (v : Z) (l : list Z) : list Z :=
  match l, i with
  | [], _ => []
  | _ :: l', O => v :: l'
  | x :: l', S i' => x :: list_set i' v l'
  end.

Definition set_stream_map (i v : Z) (h : OpusHeader) : OpusHeader :=
  mkOpusHeader (channels h) (channel_mapping h) (num_streams h) (num_coupled h)
               (gain_db h) (skip_samples h)
               (if i <? 0 then stream_map h else list_set (Z.to_nat i) v (stream_map h)).

(** ** ReadLE16 and ParseOpusHeader *)

(** [read_offset] is a [uint32_t], so [read_offset + 1] is computed in 32
    bits, in the test and in the index alike. *)
Definition ReadLE16 {S} (data : mem) (data_size : Z) (read_offset : Z) : M S Z :=
  (* check whether the 2nd byte is within the buffer *)
  if to_uint32 (read_offset + 1) >=? data_size then ret 0
  else
    b0 <- load data read_offset ;;
    let val := to_uint16 b0 in
    b1 <- load data (to_uint32 (read_offset + 1)) ;;
    let val := to_uint16 (Z.lor val (Z.shiftl b1 8)) in
    ret val.

(** The state is the record behind [header]; the result is the C++ [bool]. *)
Definition ParseOpusHeader (data : mem) (data_size : Z) : M OpusHeader bool :=
  if data_size <? kOpusHeaderSize then
    ALOG HeaderSizeTooSmall ;;
    ret false
  else
    c <- load data kOpusHeaderChannelsOffset ;;
    modify (set_channels c) ;;
    if (c <? 1) || (c >? kMaxChannels) then
      ALOG (BadChannelCount c) ;;
      ret false
    else
      skip <- ReadLE16 data data_size kOpusHeaderSkipSamplesOffset ;;
      modify (set_skip_samples skip) ;;
      gain <- ReadLE16 data data_size kOpusHeaderGainOffset ;;
      modify (set_gain_db (to_int16 gain)) ;;
      mapping <- load data kOpusHeaderChannelMappingOffset ;;
      modify (set_channel_mapping mapping) ;;
      if mapping =? 0 then
        if c >? kMaxChannelsWithDefaultLayout then
          ALOG MissingStreamMap ;;
          ret false
        else
          modify (set_num_streams 1) ;;
          modify (set_num_coupled (of_bool (c >? 1))) ;;
          modify (set_stream_map 0 0) ;;
          modify (set_stream_map 1 1) ;;
          ret true
      else if data_size <? to_size_t (kOpusHeaderStreamMapOffset + c) then
        ALOG (InsufficientStreamMapData c) ;;
        ret false
      else
        ns <- load data kOpusHeaderNumStreamsOffset ;;
        modify (set_num_streams ns) ;;
        nc <- load data kOpusHeaderNumCoupledStreamsOffset ;;
        modify (set_num_coupled nc) ;;
        if negb (ns + nc =? c) then
          ALOG InconsistentChannelMapping ;;
          ret false
        else
          for_loop (Z.to_nat c) 0 (fun i =>
            b <- load data (kOpusHeaderStreamMapOffset + i) ;;
            modify (set_stream_map i b)) ;;
          ret true.

(** ** WriteOpusHeader *)

(** The state is the memory behind [output]; the result is the C++ [int]. *)
Definition WriteOpusHeader (header : OpusHeader) (input_sample_rate : Z)
           (output_size : Z) : M mem Z :=
  (* See https://wiki.xiph.org/OggOpus#ID_Header. *)
  let total_size := to_size_t (kOpusHeaderStreamMapOffset + channels header) in
  if output_size <? total_size then
    ALOG OutputBufferTooSmall ;;
    ret (-1)
  else
    (* ensure entire header is cleared *)
    memset 0 output_size ;;
    (* Set magic signature. *)
    memcpy kOpusHeaderLabelOffset (firstn 8 (bytes_of_string "OpusHead")) ;;
    (* Set Opus version. *)
    store kOpusHeaderVersionOffset 1 ;;
    (* Set channel count. *)
    store kOpusHeaderChannelsOffset (to_uint8 (channels header)) ;;
    (* Set pre-skip *)
    memcpy kOpusHeaderSkipSamplesOffset (le_bytes 2 (skip_samples header)) ;;
    (* Set original input sample rate in Hz. *)
    memcpy kOpusHeaderSampleRateOffset (le_bytes 4 input_sample_rate) ;;
    (* Set output gain in dB. *)
    memcpy kOpusHeaderGainOffset (le_bytes 2 (gain_db header)) ;;
    if channels header >? 2 then
      (* Set channel mapping *)
      store kOpusHeaderChannelMappingOffset 1 ;;
      (* Assuming no coupled streams. *)
      store kOpusHeaderNumStreamsOffset (to_uint8 (channels header)) ;;
      store kOpusHeaderNumCoupledStreamsOffset 0 ;;
      (* Set the actual stream map. *)
      for_loop (Z.to_nat (channels header)) 0 (fun i =>
        match channel_map_at (channels header - 1) i with
        | Some b => store (kOpusHeaderStreamMapOffset + i) b
        | None => undefined
        end) ;;
      ret (to_int (to_size_t (kOpusHeaderStreamMapOffset + channels header + 1)))
    else
      store kOpusHeaderChannelMappingOffset 0 ;;
      ret (to_int (to_size_t (kOpusHeaderChannelMappingOffset + 1))).

(** ** The unified CSD: WriteOpusHeaders and GetOpusHeaderBuffers *)

(** Modelled from the spec: the AOPUS_ macros are defined in OpusHeader.h,
    which is not among the sources.  A trailer record is an 8-byte ASCII
    marker, an 8-byte length field holding 8 and an 8-byte value, 24 bytes in
    all; the comment in [WriteOpusHeaders] names the two markers. *)
Definition AOPUS_CSD_CODEC_DELAY_MARKER : list Z := bytes_of_string "AOPUSDLY".
Definition AOPUS_CSD_SEEK_PREROLL_MARKER : list Z := bytes_of_string "AOPUSPRL".
Definition AOPUS_CSD_SIZE : Z := 8.
Definition AOPUS_LENGTH : Z := 8.
Definition AOPUS_MARKER_SIZE : Z := 8.
Definition AOPUS_LENGTH_SIZE : Z := 8.
Definition AOPUS_TOTAL_CSD_SIZE : Z :=
  AOPUS_MARKER_SIZE + AOPUS_LENGTH_SIZE + AOPUS_CSD_SIZE.

(** What [GetOpusHeaderBuffers] stores through its six result pointers.  A
    buffer pointer is an offset from [data], or [None] for NULL. *)
Record views : Type := mkViews {
  opusHeadBuf : option Z;
  opusHeadSize : Z;
  codecDelayBuf : option Z;
  codecDelaySize : Z;
  seekPreRollBuf : option Z;
  seekPreRollSize : Z
}.

Definition set_opusHead (p : option Z) (n : Z) (v : views) : views :=
  mkViews p n (codecDelayBuf v) (codecDelaySize v)
          (seekPreRollBuf v) (seekPreRollSize v).
Definition set_opusHeadSize (n : Z) (v : views) : views :=
  set_opusHead (opusHeadBuf v) n v.
Definition set_codecDelay (p : option Z) (n : Z) (v : views) : views :=
  mkViews (opusHeadBuf v) (opusHeadSize v) p n
          (seekPreRollBuf v) (seekPreRollSize v).
Definition set_seekPreRoll (p : option Z) (n : Z) (v : views) : views :=
  mkViews (opusHeadBuf v) (opusHeadSize v)
          (codecDelayBuf v) (codecDelaySize v) p n.

(** The model of a [while] loop runs on fuel; running out of it is no result.
    [GetOpusHeaderBuffers] supplies enough ([GetOpusHeaderBuffers_returns]). *)
Definition out_of_fuel {S A} : M S A := fun _ _ => None.

(** The [while] loop of [GetOpusHeaderBuffers], from position [i]. *)
Fixpoint scan_markers (fuel : nat) (data : mem) (data_size : Z) (i : Z)
  : M views unit :=
  if i <? to_size_t (data_size - AOPUS_TOTAL_CSD_SIZE) then
    match fuel with
    | O => out_of_fuel
    | S fuel' =>
      let csdBuf := i in
      is_delay <- memcmp_eq data csdBuf AOPUS_CSD_CODEC_DELAY_MARKER AOPUS_MARKER_SIZE ;;
      if is_delay then
        modify (fun v => set_opusHeadSize (Z.min (opusHeadSize v) i) v) ;;
        modify (set_codecDelay (Some (csdBuf + AOPUS_MARKER_SIZE + AOPUS_LENGTH_SIZE))
                               AOPUS_CSD_SIZE) ;;
        scan_markers fuel' data data_size (to_size_t (i + AOPUS_TOTAL_CSD_SIZE))
      else
        is_preroll <- memcmp_eq data csdBuf AOPUS_CSD_SEEK_PREROLL_MARKER AOPUS_MARKER_SIZE ;;
        if is_preroll then
          modify (fun v => set_opusHeadSize (Z.min (opusHeadSize v) i) v) ;;
          modify (set_seekPreRoll (Some (csdBuf + AOPUS_MARKER_SIZE + AOPUS_LENGTH_SIZE))
                                  AOPUS_CSD_SIZE) ;;
          scan_markers fuel' data data_size (to_size_t (i + AOPUS_TOTAL_CSD_SIZE))
        else
          scan_markers fuel' data data_size (to_size_t (i + 1))
    end
  else ret tt.

Section UnifiedCsd.

(** The value of the macro AOPUS_UNIFIED_CSD_MINSIZE of OpusHeader.h is not
    given by the sources at hand: it is a parameter of the two functions that
    test against it. *)
Variable AOPUS_UNIFIED_CSD_MINSIZE : Z.

Definition WriteOpusHeaders (header : OpusHeader) (inputSampleRate : Z)
           (outputSize : Z) (codecDelay seekPreRoll : Z) : M mem Z :=
  if outputSize <? AOPUS_UNIFIED_CSD_MINSIZE then
    ALOG UnifiedBufferTooSmall ;;
    ret (-1)
  else
    headerLen <- WriteOpusHeader header inputSampleRate outputSize ;;
    if headerLen <? 0 then
      ALOG WriteOpusHeaderFailed ;;
      ret (-1)
    else if to_size_t headerLen >=? to_size_t (outputSize - 2 * AOPUS_TOTAL_CSD_SIZE) then
      ALOG NoRoomForDelayAndPreRoll ;;
      ret (-1)
    else
      let length := AOPUS_LENGTH in
      (* Add codec delay *)
      memcpy headerLen (firstn (Z.to_nat AOPUS_MARKER_SIZE) AOPUS_CSD_CODEC_DELAY_MARKER) ;;
      let headerLen := headerLen + AOPUS_MARKER_SIZE in
      memcpy headerLen (le_bytes (Z.to_nat AOPUS_LENGTH_SIZE) length) ;;
      let headerLen := headerLen + AOPUS_LENGTH_SIZE in
      memcpy headerLen (le_bytes (Z.to_nat AOPUS_CSD_SIZE) codecDelay) ;;
      let headerLen := headerLen + AOPUS_CSD_SIZE in
      (* Add skip pre roll *)
      memcpy headerLen (firstn (Z.to_nat AOPUS_MARKER_SIZE) AOPUS_CSD_SEEK_PREROLL_MARKER) ;;
      let headerLen := headerLen + AOPUS_MARKER_SIZE in
      memcpy headerLen (le_bytes (Z.to_nat AOPUS_LENGTH_SIZE) length) ;;
      let headerLen := headerLen + AOPUS_LENGTH_SIZE in
      memcpy headerLen (le_bytes (Z.to_nat AOPUS_CSD_SIZE) seekPreRoll) ;;
      let headerLen := headerLen + AOPUS_CSD_SIZE in
      ret headerLen.

(** The state is what the six result pointers point to. *)
Definition GetOpusHeaderBuffers (data : mem) (data_size : Z) : M views unit :=
  modify (set_codecDelay None 0) ;;
  modify (set_seekPreRoll None 0) ;;
  modify (set_opusHead (Some 0) data_size) ;;
  if data_size >=? AOPUS_UNIFIED_CSD_MINSIZE then
    scan_markers (Z.to_nat (to_size_t (data_size - AOPUS_TOTAL_CSD_SIZE)))
                 data data_size 0
  else ret tt.

End UnifiedCsd.

(** ** Running a call *)

(** Memory holding the bytes [l] from offset 0 and [d] elsewhere. *)
Definition mem_of_list (d : Z) (l : list Z) : mem :=
  fun j => if j <? 0 then d else nth (Z.to_nat j) l d.

(** The result record of [GetOpusHeaderBuffers] before the call: whatever the
    caller's six variables held. *)
Definition views0 : views := mkViews None 0 None 0 None 0.

(** A header record before [ParseOpusHeader] fills it. *)
Definition header0 : OpusHeader := mkOpusHeader 0 0 0 0 0 0 [0; 0; 0; 0; 0; 0; 0; 0].

(** * Definitions used in the statements *)

(** ** Offsets and verdicts *)

(** [i; i + 1; ...], [n] offsets. *)
Fixpoint zseq (i : Z) (n : nat) : list Z :=
  match n with
  | O => []
  | S n' => i :: zseq (i + 1) n'
  end.

(** What a caller of a [bool]-valued function can tell: the result and the
    messages logged. *)
Definition verdict {S} (r : option (bool * S * trace)) : option (bool * list message) :=
  match r with
  | Some (b, _, tr) => Some (b, messages tr)
  | None => None
  end.

(** ** What ParseOpusHeader computes *)

(** The 16-bit value [ReadLE16] assembles at [off] when it reads. *)
Definition le16_at (data : mem) (off : Z) : Z :=
  to_uint16 (Z.lor (to_uint16 (data off)) (Z.shiftl (data (to_uint32 (off + 1))) 8)).

(** The reads every parse makes once the channel count is accepted. *)
Definition fixed_reads : trace :=
  [Read 9; Read 10; Read 11; Read 16; Read 17; Read 18].

(** The record after those reads. *)
Definition fixed_fields (data : mem) (h : OpusHeader) : OpusHeader :=
  set_channel_mapping (data 18)
    (set_gain_db (to_int16 (le16_at data 16))
       (set_skip_samples (le16_at data 10) (set_channels (data 9) h))).

(** The record after [n] rounds of the stream-map loop from index [i]. *)
Fixpoint copy_stream_map (data : mem) (n : nat) (i : Z) (h : OpusHeader) : OpusHeader :=
  match n with
  | O => h
  | S n' => copy_stream_map data n' (i + 1) (set_stream_map i (data (21 + i)) h)
  end.

(** ** What WriteOpusHeader and WriteOpusHeaders store *)

(** Memory after [n] stores of [v] from offset [i] upwards. *)
Fixpoint fill (n : nat) (i v : Z) (m : mem) : mem :=
  match n with
  | O => m
  | S n' => fill n' (i + 1) v (upd m i v)
  end.

(** The bytes of the fields that precede the mapping family, offsets 0..17. *)
Definition head_bytes (h : OpusHeader) (rate : Z) : list Z :=
  bytes_of_string "OpusHead" ++ [1; to_uint8 (channels h)]
    ++ le_bytes 2 (skip_samples h) ++ le_bytes 4 rate ++ le_bytes 2 (gain_db h).

(** Row [channels - 1] of the table, cut to [channels] entries. *)
Definition canonical_map (ch : Z) : list Z :=
  firstn (Z.to_nat ch) (nth (Z.to_nat (ch - 1)) kOpusChannelMap []).

(** The count [WriteOpusHeader] returns on success. *)
Definition written_length (h : OpusHeader) : Z :=
  if channels h >? 2 then 21 + channels h + 1 else 19.

(** The header bytes it stores. *)
Definition wire_bytes (h : OpusHeader) (rate : Z) : list Z :=
  if channels h >? 2
  then head_bytes h rate ++ [1; channels h; 0] ++ canonical_map (channels h)
  else head_bytes h rate ++ [0].

(** What a successful [WriteOpusHeader] leaves: the header bytes [bs], zeros
    up to [size], the rest of memory as it was. *)
Definition written (m m' : mem) (size : Z) (bs : list Z) : Prop :=
  bytes_at m' 0 (length bs) = bs
  /\ (forall j, Z.of_nat (length bs) <= j < size -> m' j = 0)
  /\ (forall j, j < 0 \/ size <= j -> m' j = m j).

(** The two trailer records as [WriteOpusHeaders] lays them out. *)
Definition trailer_bytes (codecDelay seekPreRoll : Z) : list Z :=
  AOPUS_CSD_CODEC_DELAY_MARKER ++ le_bytes 8 AOPUS_LENGTH ++ le_bytes 8 codecDelay
    ++ AOPUS_CSD_SEEK_PREROLL_MARKER ++ le_bytes 8 AOPUS_LENGTH ++ le_bytes 8 seekPreRoll.

(** ** The round trip *)

(** The data-model invariants of a header record. *)
Definition valid_header (h : OpusHeader) : Prop :=
  1 <= channels h <= 8
  /\ 0 <= skip_samples h < 2 ^ 16
  /\ - 2 ^ 15 <= gain_db h < 2 ^ 15
  /\ 0 <= channel_mapping h < 256
  /\ 0 <= num_streams h < 256 /\ 0 <= num_coupled h < 256
  /\ length (stream_map h) = 8%nat
  /\ (channel_mapping h <> 0 -> num_streams h + num_coupled h = channels h)
  /\ (channel_mapping h = 0 -> channels h <= 2).

(** The round trip at one input: the header [h] is written into [m] with
    capacity [size], the written memory is parsed over the returned length
    into the record [h0], and the parse reproduces the fields of [h], the
    defaults standing in for the three mapping fields when there are at most
    2 channels. *)
Definition round_trip (h : OpusHeader) (rate size : Z) (m : mem) (h0 : OpusHeader) : Prop :=
  exists n m' tr h' tr',
    WriteOpusHeader h rate size m [] = Some (n, m', tr)
    /\ ParseOpusHeader m' n h0 [] = Some (true, h', tr')
    /\ channels h' = channels h
    /\ skip_samples h' = skip_samples h
    /\ gain_db h' = gain_db h
    /\ channel_mapping h' = channel_mapping h
    /\ (channels h <= 2 ->
          num_streams h' = 1 /\ num_coupled h' = of_bool (channels h >? 1)
          /\ firstn 2 (stream_map h') = [0; 1])
    /\ (2 < channels h ->
          num_streams h' = num_streams h /\ num_coupled h' = num_coupled h
          /\ firstn (Z.to_nat (channels h)) (stream_map h')
             = firstn (Z.to_nat (channels h)) (stream_map h)).

(** What the parse of a written header holds in the mapping fields: the
    values [WriteOpusHeader] chose, whatever the record written held. *)
Definition writer_mapping (h h' : OpusHeader) : Prop :=
  (channels h <= 2 ->
     channel_mapping h' = 0 /\ num_streams h' = 1
     /\ num_coupled h' = of_bool (channels h >? 1)
     /\ firstn 2 (stream_map h') = [0; 1])
  /\ (2 < channels h ->
     channel_mapping h' = 1 /\ num_streams h' = channels h /\ num_coupled h' = 0
     /\ firstn (Z.to_nat (channels h)) (stream_map h') = canonical_map (channels h)).

(** The records whose mapping fields are the ones [WriteOpusHeader] writes. *)
Definition holds_writer_mapping (h : OpusHeader) : Prop :=
  (channels h <= 2 -> channel_mapping h = 0)
  /\ (2 < channels h ->
      channel_mapping h = 1 /\ num_streams h = channels h /\ num_coupled h = 0
      /\ firstn (Z.to_nat (channels h)) (stream_map h) = canonical_map (channels h)).

(** ** The scan *)

(** How a payload view relates to the one before the scan from [i]: it is
    the same, or it lies 16 bytes after a marker found at some [k] in
    [i, data_size - 24). *)
Definition view_from (data : mem) (marker : list Z) (i data_size : Z)
           (before after : option Z * Z) : Prop :=
  after = before
  \/ exists k, i <= k < data_size - 24
               /\ after = (Some (k + 16), 8)
               /\ bytes_match data k marker = true.

(** No byte of the pre-skip, the sample rate or the gain, as written, is the
    letter A (65), with which both markers start. *)
Definition fields_without_A (h : OpusHeader) (rate : Z) : Prop :=
  ~ In 65 (le_bytes 2 (skip_samples h) ++ le_bytes 4 rate ++ le_bytes 2 (gain_db h)).

(** A trailer marker, of either kind, starts at offset [k] of [data]. *)
Definition marker_at (data : mem) (k : Z) : Prop :=
  bytes_at data k 8 = AOPUS_CSD_CODEC_DELAY_MARKER
  \/ bytes_at data k 8 = AOPUS_CSD_SEEK_PREROLL_MARKER.

(** What the events of a scan of [data_size] bytes from [i] are: comparisons
    of 8 bytes that start in [i, data_size - 24), and nothing else. *)
Definition scan_events (data_size i : Z) (t : trace) : Prop :=
  read_offsets t = [] /\ write_offsets t = [] /\ messages t = []
  /\ forall o n, In (o, n) (compared_ranges t) -> n = 8 /\ i <= o < data_size - 24.

(** ** Concrete inputs *)

(** Memory holding 0xAA everywhere. *)
Definition stale : mem := fun _ => 170.

(** A stereo record: pre-skip 312, gain -3. *)
Definition stereo : OpusHeader :=
  mkOpusHeader 2 0 1 1 (-3) 312 [0; 1; 0; 0; 0; 0; 0; 0].

(** A six-channel record with four streams, two of them coupled. *)
Definition six_channels : OpusHeader :=
  mkOpusHeader 6 1 4 2 (-3) 312 [0; 1; 2; 3; 4; 5; 0; 0].

(** An eight-channel record holding the values the writer stores. *)
Definition eight_channels : OpusHeader :=
  mkOpusHeader 8 1 8 0 0 312 [0; 6; 1; 2; 3; 4; 5; 7].

(** A record whose channel count was never set to a sensible value. *)
Definition negative_channels : OpusHeader :=
  mkOpusHeader (-21) 0 0 0 0 0 [0; 0; 0; 0; 0; 0; 0; 0].

(** A stereo record whose pre-skip, gain and (with the rate
    [spelling_rate]) sample rate are written as the eight letters AOPUSDLY. *)
Definition spelling_header : OpusHeader :=
  mkOpusHeader 2 0 1 1 22860 20289 [0; 1; 0; 0; 0; 0; 0; 0].

Definition spelling_rate : Z := 1146312016.

(** The 19 bytes of a stereo header: pre-skip 312 = 0x0138, rate 48000,
    gain -3. *)
Definition stereo_head : list Z :=
  [79; 112; 117; 115; 72; 101; 97; 100; 1; 2; 56; 1; 128; 187; 0; 0; 253; 255; 0].

(** The same with other bytes at offsets 10, 11, 16 and 17. *)
Definition stereo_head_scrambled : list Z :=
  [79; 112; 117; 115; 72; 101; 97; 100; 1; 2; 7; 7; 128; 187; 0; 0; 9; 9; 0].

(** The same announcing 9 channels. *)
Definition nine_channel_head : list Z :=
  [79; 112; 117; 115; 72; 101; 97; 100; 1; 9; 56; 1; 128; 187; 0; 0; 253; 255; 0].

(** The 27 bytes of a six-channel header with four streams, two of them
    coupled, and the stream map 5, 4, 3, 2, 1, 0. *)
Definition six_channel_head : list Z :=
  [79; 112; 117; 115; 72; 101; 97; 100; 1; 6; 56; 1; 128; 187; 0; 0; 253; 255;
   1; 4; 2; 5; 4; 3; 2; 1; 0].

(** The 19 bytes of a header that announces 6 channels and mapping family 0. *)
Definition six_without_map : list Z :=
  [79; 112; 117; 115; 72; 101; 97; 100; 1; 6; 56; 1; 128; 187; 0; 0; 253; 255; 0].

(** The stereo header with the magic label zeroed, version 7 and another
    sample rate. *)
Definition stereo_head_no_magic : list Z :=
  [0; 0; 0; 0; 0; 0; 0; 0; 7; 2; 56; 1; 1; 2; 3; 4; 253; 255; 0].

(** 100 bytes: the stereo header followed by zeros. *)
Definition padded_stereo_head : list Z := stereo_head ++ repeat 0 81.

(** 100 bytes: the stereo header, 57 zero bytes and a codec-delay record
    (marker, length 8, value 1000) that starts at offset 76 = 100 - 24 and
    ends with the buffer. *)
Definition trailing_delay_blob : list Z :=
  stereo_head ++ repeat 0 57
    ++ AOPUS_CSD_CODEC_DELAY_MARKER ++ le_bytes 8 AOPUS_LENGTH ++ le_bytes 8 1000.

(** * Properties *)

(** ** Tactics and basic facts *)

Ltac consts := cbv [kOpusHeaderSize kOpusHeaderLabelOffset kOpusHeaderVersionOffset
  kOpusHeaderChannelsOffset kOpusHeaderSkipSamplesOffset kOpusHeaderSampleRateOffset
  kOpusHeaderGainOffset kOpusHeaderChannelMappingOffset kOpusHeaderNumStreamsOffset
  kOpusHeaderNumCoupledStreamsOffset kOpusHeaderStreamMapOffset kMaxChannels
  kMaxChannelsWithDefaultLayout AOPUS_TOTAL_CSD_SIZE AOPUS_MARKER_SIZE
  AOPUS_LENGTH_SIZE AOPUS_CSD_SIZE AOPUS_LENGTH] in *.

(** Unfold the monad, leaving arithmetic alone. *)
Ltac run :=
  cbv beta iota delta [bind ret modify emit load ALOG store orb andb negb memcmp_eq].

(** Settle the first integer test of the goal, as taken or as not taken. *)
Ltac split_test tac_then tac_else :=
  match goal with
  | |- context [?a <? ?b] => destruct (Z.ltb_spec a b); [tac_then | tac_else]
  | |- context [?a >? ?b] =>
      rewrite (Z.gtb_ltb a b); destruct (Z.ltb_spec b a); [tac_then | tac_else]
  | |- context [?a >=? ?b] =>
      rewrite (Z.geb_leb a b); destruct (Z.leb_spec b a); [tac_then | tac_else]
  | |- context [?a =? ?b] => destruct (Z.eqb_spec a b); [tac_then | tac_else]
  end.
Ltac taken := split_test idtac ltac:(lia); run.
Ltac not_taken := split_test ltac:(lia) idtac; run.

Lemma to_uint8_small x : 0 <= x < 256 -> to_uint8 x = x.
Proof. intros; unfold to_uint8; apply Z.mod_small; lia. Qed.

Lemma to_uint16_small x : 0 <= x < 65536 -> to_uint16 x = x.
Proof. intros; unfold to_uint16; apply Z.mod_small; lia. Qed.

Lemma to_uint32_small x : 0 <= x < 2 ^ 32 -> to_uint32 x = x.
Proof. intros; unfold to_uint32; apply Z.mod_small; lia. Qed.

Lemma to_size_t_small x : 0 <= x < 2 ^ 64 -> to_size_t x = x.
Proof. intros; unfold to_size_t; apply Z.mod_small; lia. Qed.

Lemma to_int16_of_uint16 x : - 2 ^ 15 <= x < 2 ^ 15 -> to_int16 (x mod 2 ^ 16) = x.
Proof.
  intros H. unfold to_int16, to_signed.
  rewrite Z.mod_mod by lia.
  change (2 ^ (16 - 1)) with (2 ^ 15).
  destruct (Z_lt_le_dec x 0).
  - rewrite <- (Z.mod_add x 1 (2 ^ 16)) by lia.
    rewrite Z.mod_small by lia.
    destruct (Z.ltb_spec (x + 1 * 2 ^ 16) (2 ^ 15)); lia.
  - rewrite Z.mod_small by lia.
    destruct (Z.ltb_spec x (2 ^ 15)); lia.
Qed.

(** A 16-bit value is its low byte or-ed with its high byte shifted. *)
Lemma lor_le_bytes x :
  0 <= x < 2 ^ 16 -> Z.lor (x mod 256) (Z.shiftl (x / 256 mod 256) 8) = x.
Proof.
  intros H.
  assert (Hhi : x / 256 mod 256 = x / 256).
  { apply Z.mod_small. split; [apply Z.div_pos; lia|].
    apply Z.div_lt_upper_bound; lia. }
  rewrite Hhi, Z.shiftl_mul_pow2 by lia. change (2 ^ 8) with 256.
  rewrite <- Z.lxor_lor, <- Z.add_nocarry_lxor.
  - rewrite (Z.div_mod x 256) at 3 by lia. lia.
  - change 256 with (2 ^ 8). rewrite <- Z.shiftl_mul_pow2 by lia.
    apply Z.bits_inj'. intros n Hn.
    rewrite Z.land_spec, Z.bits_0.
    destruct (Z_lt_le_dec n 8).
    + rewrite (Z.shiftl_spec_low _ _ _ l). apply andb_false_r.
    + rewrite Z.mod_pow2_bits_high by lia. reflexivity.
  - change 256 with (2 ^ 8). rewrite <- Z.shiftl_mul_pow2 by lia.
    apply Z.bits_inj'. intros n Hn.
    rewrite Z.land_spec, Z.bits_0.
    destruct (Z_lt_le_dec n 8).
    + rewrite (Z.shiftl_spec_low _ _ _ l). apply andb_false_r.
    + rewrite Z.mod_pow2_bits_high by lia. reflexivity.
Qed.

Lemma lor_bytes_range a b :
  0 <= a < 256 -> 0 <= b < 256 -> 0 <= Z.lor a (Z.shiftl b 8) < 65536.
Proof.
  intros Ha Hb.
  assert (Hnn : 0 <= Z.lor a (Z.shiftl b 8)).
  { apply Z.lor_nonneg. split; [lia|]. apply Z.shiftl_nonneg. lia. }
  split; [exact Hnn|].
  destruct (Z.eq_dec (Z.lor a (Z.shiftl b 8)) 0) as [E|E]; [lia|].
  change 65536 with (2 ^ 16). apply Z.log2_lt_pow2; [lia|].
  rewrite Z.log2_lor by (try apply Z.shiftl_nonneg; lia).
  apply Z.max_lub_lt.
  - destruct (Z.eq_dec a 0) as [->|]; [simpl; lia|].
    apply Z.log2_lt_pow2; lia.
  - destruct (Z.eq_dec b 0) as [->|]; [simpl; lia|].
    rewrite Z.log2_shiftl by lia.
    assert (Z.log2 b < 8) by (apply Z.log2_lt_pow2; lia). lia.
Qed.

(** ** Traces *)

Lemma in_zseq n : forall i j, In j (zseq i n) <-> i <= j < i + Z.of_nat n.
Proof.
  induction n as [|n IH]; intros i j; simpl zseq.
  - simpl. lia.
  - simpl In. rewrite IH. lia.
Qed.

Lemma read_offsets_app a b : read_offsets (a ++ b) = read_offsets a ++ read_offsets b.
Proof. unfold read_offsets. apply flat_map_app. Qed.

Lemma messages_app a b : messages (a ++ b) = messages a ++ messages b.
Proof. unfold messages. apply flat_map_app. Qed.

Lemma write_offsets_map_Write l : write_offsets (map Write l) = l.
Proof. induction l as [|x l IH]; simpl; [reflexivity | now rewrite IH]. Qed.

Lemma messages_map_Write l : messages (map Write l) = [].
Proof. induction l as [|x l IH]; simpl; [reflexivity | exact IH]. Qed.

(** ** The paths through ParseOpusHeader *)

Lemma ReadLE16_out (S : Type) data data_size off (s : S) t :
  data_size <= to_uint32 (off + 1) ->
  ReadLE16 data data_size off s t = Some (0, s, t).
Proof. intros H. unfold ReadLE16. taken. reflexivity. Qed.

Lemma ReadLE16_in (S : Type) data data_size off (s : S) t :
  to_uint32 (off + 1) < data_size ->
  ReadLE16 data data_size off s t =
  Some (le16_at data off, s, t ++ [Read off; Read (to_uint32 (off + 1))]).
Proof.
  intros H. unfold ReadLE16. not_taken. rewrite <- app_assoc. reflexivity.
Qed.

Lemma stream_map_loop data n : forall i h t,
  for_loop n i
    (fun (i : Z) (s : OpusHeader) (t : trace) =>
       Some (tt, set_stream_map i (data (21 + i)) s, t ++ [Read (21 + i)])) h t
  = Some (tt, copy_stream_map data n i h,
          t ++ map (fun k => Read (21 + k)) (zseq i n)).
Proof.
  induction n as [|n IH]; intros i h t; simpl for_loop; run.
  - simpl. now rewrite app_nil_r.
  - rewrite IH. simpl. now rewrite <- app_assoc.
Qed.

Section ParsePaths.

Variables (data : mem) (data_size : Z) (h : OpusHeader) (t : trace).

Lemma parse_too_small :
  data_size < 19 ->
  ParseOpusHeader data data_size h t = Some (false, h, t ++ [Log HeaderSizeTooSmall]).
Proof. intros H. unfold ParseOpusHeader. consts. taken. reflexivity. Qed.

Lemma parse_bad_channels :
  19 <= data_size -> data 9 < 1 \/ 8 < data 9 ->
  ParseOpusHeader data data_size h t =
  Some (false, set_channels (data 9) h, t ++ [Read 9; Log (BadChannelCount (data 9))]).
Proof.
  intros H Hc. unfold ParseOpusHeader. consts. not_taken.
  destruct Hc.
  - taken. rewrite <- app_assoc. reflexivity.
  - not_taken. taken. rewrite <- app_assoc. reflexivity.
Qed.

(** Up to the test of the mapping byte. *)
Ltac parse_fixed :=
  unfold ParseOpusHeader; consts; not_taken; not_taken; not_taken;
  rewrite !ReadLE16_in by (rewrite to_uint32_small; lia);
  rewrite !to_uint32_small by lia;
  change (10 + 1) with 11; change (16 + 1) with 17.

Lemma parse_missing_map :
  19 <= data_size -> 2 < data 9 <= 8 -> data 18 = 0 ->
  ParseOpusHeader data data_size h t =
  Some (false, fixed_fields data h, t ++ fixed_reads ++ [Log MissingStreamMap]).
Proof.
  intros H Hc Hm. parse_fixed. taken. taken.
  rewrite <- !app_assoc. reflexivity.
Qed.

Lemma parse_default_layout :
  19 <= data_size -> 1 <= data 9 <= 2 -> data 18 = 0 ->
  ParseOpusHeader data data_size h t =
  Some (true,
        set_stream_map 1 1
          (set_stream_map 0 0
             (set_num_coupled (of_bool (data 9 >? 1))
                (set_num_streams 1 (fixed_fields data h)))),
        t ++ fixed_reads).
Proof.
  intros H Hc Hm. parse_fixed. taken. not_taken.
  rewrite <- !app_assoc. rewrite (Z.gtb_ltb (data 9) 1). reflexivity.
Qed.

Lemma parse_short_map :
  19 <= data_size -> 1 <= data 9 <= 8 -> data 18 <> 0 -> data_size < 21 + data 9 ->
  ParseOpusHeader data data_size h t =
  Some (false, fixed_fields data h,
        t ++ fixed_reads ++ [Log (InsufficientStreamMapData (data 9))]).
Proof.
  intros H Hc Hm Hs. parse_fixed. not_taken.
  rewrite to_size_t_small by lia. taken.
  rewrite <- !app_assoc. reflexivity.
Qed.

Lemma parse_inconsistent :
  19 <= data_size -> 1 <= data 9 <= 8 -> data 18 <> 0 -> 21 + data 9 <= data_size ->
  data 19 + data 20 <> data 9 ->
  ParseOpusHeader data data_size h t =
  Some (false, set_num_coupled (data 20) (set_num_streams (data 19) (fixed_fields data h)),
        t ++ fixed_reads ++ [Read 19; Read 20; Log InconsistentChannelMapping]).
Proof.
  intros H Hc Hm Hs Hi. parse_fixed. not_taken.
  rewrite to_size_t_small by lia. not_taken. not_taken.
  rewrite <- !app_assoc. reflexivity.
Qed.

Lemma parse_mapped :
  19 <= data_size -> 1 <= data 9 <= 8 -> data 18 <> 0 -> 21 + data 9 <= data_size ->
  data 19 + data 20 = data 9 ->
  ParseOpusHeader data data_size h t =
  Some (true,
        copy_stream_map data (Z.to_nat (data 9)) 0
          (set_num_coupled (data 20) (set_num_streams (data 19) (fixed_fields data h))),
        t ++ fixed_reads ++ [Read 19; Read 20]
          ++ map (fun k => Read (21 + k)) (zseq 0 (Z.to_nat (data 9)))).
Proof.
  intros H Hc Hm Hs Hi. parse_fixed. not_taken.
  rewrite to_size_t_small by lia. not_taken. taken.
  rewrite stream_map_loop. rewrite <- !app_assoc. reflexivity.
Qed.

End ParsePaths.

(** ** The stream map after the copying loop *)

Lemma list_set_length v : forall l i, length (list_set i v l) = length l.
Proof.
  induction l as [|x l IH]; intros [|i]; simpl; try reflexivity.
  now rewrite IH.
Qed.

Lemma firstn_list_set v : forall l i,
  (i < length l)%nat -> firstn (S i) (list_set i v l) = firstn i l ++ [v].
Proof.
  induction l as [|x l IH]; intros i Hi; simpl in Hi; [lia|].
  destruct i as [|i].
  - reflexivity.
  - change (list_set (S i) v (x :: l)) with (x :: list_set i v l).
    change (firstn (S (S i)) (x :: list_set i v l))
      with (x :: firstn (S i) (list_set i v l)).
    rewrite IH by lia. reflexivity.
Qed.

Lemma skipn_list_set v : forall l i j,
  (i < j)%nat -> skipn j (list_set i v l) = skipn j l.
Proof.
  induction l as [|x l IH]; intros i j Hij.
  - destruct i; reflexivity.
  - destruct j as [|j]; [lia|]. destruct i as [|i]; simpl.
    + reflexivity.
    + apply IH. lia.
Qed.

Lemma copy_stream_map_fields data n : forall i h,
  let h' := copy_stream_map data n i h in
  channels h' = channels h /\ channel_mapping h' = channel_mapping h /\
  num_streams h' = num_streams h /\ num_coupled h' = num_coupled h /\
  gain_db h' = gain_db h /\ skip_samples h' = skip_samples h.
Proof.
  induction n as [|n IH]; intros i h; simpl.
  - repeat split.
  - apply (IH (i + 1) (set_stream_map i (data (21 + i)) h)).
Qed.

Lemma copy_stream_map_map data n : forall i h,
  0 <= i -> (Z.to_nat i + n <= length (stream_map h))%nat ->
  stream_map (copy_stream_map data n i h) =
  firstn (Z.to_nat i) (stream_map h) ++ bytes_at data (21 + i) n
    ++ skipn (Z.to_nat i + n) (stream_map h).
Proof.
  induction n as [|n IH]; intros i h Hi Hlen.
  - simpl. rewrite Nat.add_0_r. symmetry. apply firstn_skipn.
  - simpl copy_stream_map. rewrite IH; [|lia|].
    + unfold set_stream_map. simpl stream_map.
      destruct (Z.ltb_spec i 0) as [?|_]; [lia|].
      replace (Z.to_nat (i + 1)) with (S (Z.to_nat i)) by lia.
      rewrite firstn_list_set by lia.
      rewrite skipn_list_set by lia.
      replace (21 + (i + 1)) with (21 + i + 1) by lia.
      simpl bytes_at. rewrite <- app_assoc.
      replace (S (Z.to_nat i) + n)%nat with (Z.to_nat i + S n)%nat by lia.
      reflexivity.
    + unfold set_stream_map. simpl stream_map.
      destruct (Z.ltb_spec i 0) as [?|_]; [lia|].
      rewrite list_set_length. lia.
Qed.

(** ** Claims on the parser *)

Lemma read_offsets_stream_map_reads n : forall i,
  read_offsets (map (fun k => Read (21 + k)) (zseq i n)) = zseq (21 + i) n.
Proof.
  induction n as [|n IH]; intros i; simpl; [reflexivity|].
  f_equal. rewrite IH. f_equal. apply Z.add_assoc.
Qed.

Lemma messages_stream_map_reads l :
  messages (map (fun k => Read (21 + k)) l) = [].
Proof. induction l as [|x l IH]; simpl; [reflexivity | exact IH]. Qed.

(** C9 (lenient 16-bit reads).  [ReadLE16] computes the index of the second
    byte as [read_offset + 1] in 32 bits.  Where that index is at or beyond
    [data_size] it returns 0 and reads nothing; where it is below, it reads the
    two bytes and returns [data[read_offset] | data[read_offset + 1] << 8].
    [ParseOpusHeader] never fails on account of the two fields read this way:
    its result and its messages do not depend on the bytes at offsets 10, 11,
    16 and 17. *)
Theorem ReadLE16_lenient :
  forall (data : mem) (data_size read_offset : Z),
    (forall (S : Type) (s : S) (t : trace),
        data_size <= to_uint32 (read_offset + 1) ->
        ReadLE16 data data_size read_offset s t = Some (0, s, t))
    /\ (forall (S : Type) (s : S) (t : trace),
        to_uint32 (read_offset + 1) < data_size ->
        0 <= data read_offset < 256 ->
        0 <= data (to_uint32 (read_offset + 1)) < 256 ->
        ReadLE16 data data_size read_offset s t =
        Some (Z.lor (data read_offset)
                    (Z.shiftl (data (to_uint32 (read_offset + 1))) 8),
              s, t ++ [Read read_offset; Read (to_uint32 (read_offset + 1))]))
    /\ (forall (data' : mem) (h : OpusHeader),
        (forall j, j <> 10 -> j <> 11 -> j <> 16 -> j <> 17 -> data' j = data j) ->
        verdict (ParseOpusHeader data' data_size h []) =
        verdict (ParseOpusHeader data data_size h [])).
Proof.
  intros data data_size read_offset. split; [|split].
  - intros S s t H. now apply ReadLE16_out.
  - intros S s t H H0 H1. rewrite ReadLE16_in by exact H.
    unfold le16_at. rewrite (to_uint16_small (data read_offset)) by lia.
    rewrite to_uint16_small by (apply lor_bytes_range; lia). reflexivity.
  - intros data' h Hag.
    assert (E9 : data' 9 = data 9) by (apply Hag; lia).
    assert (E18 : data' 18 = data 18) by (apply Hag; lia).
    assert (E19 : data' 19 = data 19) by (apply Hag; lia).
    assert (E20 : data' 20 = data 20) by (apply Hag; lia).
    destruct (Z_lt_le_dec data_size 19) as [Hs|Hs].
    { now rewrite !parse_too_small by exact Hs. }
    destruct (Z_lt_le_dec (data 9) 1) as [Hc|Hc].
    { rewrite !parse_bad_channels by lia. simpl. now rewrite E9. }
    destruct (Z_lt_le_dec 8 (data 9)) as [Hc'|Hc'].
    { rewrite !parse_bad_channels by lia. simpl. now rewrite E9. }
    destruct (Z.eq_dec (data 18) 0) as [Hm|Hm].
    { destruct (Z_lt_le_dec 2 (data 9)).
      - now rewrite !parse_missing_map by lia.
      - now rewrite !parse_default_layout by lia. }
    destruct (Z_lt_le_dec data_size (21 + data 9)).
    { rewrite !parse_short_map by lia. simpl. now rewrite E9. }
    destruct (Z.eq_dec (data 19 + data 20) (data 9)).
    + rewrite !parse_mapped by lia. unfold verdict.
      rewrite !app_nil_l, !messages_app, !messages_stream_map_reads. reflexivity.
    + now rewrite !parse_inconsistent by lia.
Qed.

(** C9 at work: the pre-skip of the 19-byte stereo header read with
    [data_size] 11 and 19, and the verdict with the four bytes replaced. *)
Lemma ReadLE16_lenient_witness :
  ReadLE16 (mem_of_list 0 stereo_head) 11 10 tt [] = Some (0, tt, [])
  /\ ReadLE16 (mem_of_list 0 stereo_head) 19 10 tt [] = Some (312, tt, [Read 10; Read 11])
  /\ verdict (ParseOpusHeader (mem_of_list 0 stereo_head_scrambled) 19 header0 [])
     = verdict (ParseOpusHeader (mem_of_list 0 stereo_head) 19 header0 []).
Proof.
  split; [|split].
  - apply (proj1 (ReadLE16_lenient (mem_of_list 0 stereo_head) 11 10)).
    vm_compute. discriminate.
  - apply (proj1 (proj2 (ReadLE16_lenient (mem_of_list 0 stereo_head) 19 10)) unit tt []);
      vm_compute; split; (reflexivity || discriminate).
  - apply (proj2 (proj2 (ReadLE16_lenient (mem_of_list 0 stereo_head) 19 10))).
    intros j H10 H11 H16 H17. unfold mem_of_list.
    destruct (Z.ltb_spec j 0); [reflexivity|].
    destruct (Z.to_nat j) as [|[|[|[|[|[|[|[|[|[|[|[|[|[|[|[|[|[|[|k]]]]]]]]]]]]]]]]]]] eqn:E;
      try reflexivity; lia.
Defined.

(** C7 (channel validation).  On a buffer of at least 19 bytes whose byte at
    offset 9 is 0 or above 8, [ParseOpusHeader] returns false after storing
    that byte in [channels] and logging the bad channel count, having read
    offset 9 only.  For a byte in 1..8 the call does not end at that test:
    whatever it returns, the only messages it can have logged are the three
    of the mapping stage. *)
Theorem channel_validation :
  forall (data : mem) (data_size : Z) (h : OpusHeader),
    19 <= data_size ->
    (data 9 = 0 \/ 8 < data 9 ->
       ParseOpusHeader data data_size h [] =
       Some (false, set_channels (data 9) h,
             [Read 9; Log (BadChannelCount (data 9))]))
    /\ (1 <= data 9 <= 8 ->
       exists (b : bool) (h' : OpusHeader) (tr : trace),
         ParseOpusHeader data data_size h [] = Some (b, h', tr)
         /\ channels h' = data 9
         /\ (forall m, In m (messages tr) ->
               m = MissingStreamMap \/ m = InsufficientStreamMapData (data 9)
               \/ m = InconsistentChannelMapping)).
Proof.
  intros data data_size h Hs. split.
  - intros Hc. rewrite parse_bad_channels by lia. reflexivity.
  - intros Hc.
    destruct (Z.eq_dec (data 18) 0) as [Hm|Hm].
    { destruct (Z_lt_le_dec 2 (data 9)).
      - rewrite parse_missing_map by lia. do 3 eexists.
        split; [reflexivity|]. split; [reflexivity|].
        simpl. intros m [<-|[]]. auto.
      - rewrite parse_default_layout by lia. do 3 eexists.
        split; [reflexivity|]. split; [reflexivity|].
        simpl. intros m []. }
    destruct (Z_lt_le_dec data_size (21 + data 9)).
    { rewrite parse_short_map by lia. do 3 eexists.
      split; [reflexivity|]. split; [reflexivity|].
      simpl. intros m [<-|[]]. auto. }
    destruct (Z.eq_dec (data 19 + data 20) (data 9)).
    + rewrite parse_mapped by lia. do 3 eexists.
      split; [reflexivity|]. split.
      * apply (copy_stream_map_fields data (Z.to_nat (data 9)) 0).
      * rewrite app_nil_l, !messages_app, messages_stream_map_reads.
        simpl. intros m [].
    + rewrite parse_inconsistent by lia. do 3 eexists.
      split; [reflexivity|]. split; [reflexivity|].
      simpl. intros m [<-|[]]. auto.
Qed.

(** C7 at work: a header announcing 9 channels is refused at the channel
    test; the stereo header passes it. *)
Lemma channel_validation_witness :
  ParseOpusHeader (mem_of_list 0 nine_channel_head) 19 header0 [] =
    Some (false, set_channels 9 header0, [Read 9; Log (BadChannelCount 9)])
  /\ exists b h' tr,
       ParseOpusHeader (mem_of_list 0 stereo_head) 19 header0 [] = Some (b, h', tr)
       /\ channels h' = 2
       /\ (forall m, In m (messages tr) ->
             m = MissingStreamMap \/ m = InsufficientStreamMapData 2
             \/ m = InconsistentChannelMapping).
Proof.
  split.
  - apply (proj1 (channel_validation (mem_of_list 0 nine_channel_head) 19 header0
                    ltac:(lia))).
    right. vm_compute. reflexivity.
  - apply (proj2 (channel_validation (mem_of_list 0 stereo_head) 19 header0
                    ltac:(lia))).
    vm_compute. split; discriminate.
Defined.

(** C8 (mapping path).  On a buffer of at least 19 bytes whose mapping byte
    (offset 18) is not zero: [ParseOpusHeader] returns false if [data_size] is
    below 21 + channels, and returns false if the bytes at 19 and 20 do not
    add up to the channel count; when the channel count and the size are
    accepted and only the sum is wrong, the message is the one of the
    inconsistent mapping.  Otherwise (channel count in 1..8, size at least
    21 + channels, sum equal to the channel count) it returns true, with
    [num_streams] and [num_coupled] the bytes at 19 and 20 and the first
    [channels] entries of [stream_map] the bytes from offset 21 as they are;
    the entries after them keep what the record held, and the bytes from
    offset 21 on that are read are exactly the [channels] copied ones. *)
Theorem mapping_path :
  forall (data : mem) (data_size : Z) (h : OpusHeader),
    19 <= data_size -> data 18 <> 0 ->
    (data_size < 21 + data 9 ->
       exists h' tr, ParseOpusHeader data data_size h [] = Some (false, h', tr))
    /\ (data 19 + data 20 <> data 9 ->
       exists h' tr, ParseOpusHeader data data_size h [] = Some (false, h', tr))
    /\ (1 <= data 9 <= 8 -> 21 + data 9 <= data_size ->
        data 19 + data 20 <> data 9 ->
       exists h' tr, ParseOpusHeader data data_size h [] = Some (false, h', tr)
         /\ messages tr = [InconsistentChannelMapping])
    /\ (1 <= data 9 <= 8 -> 21 + data 9 <= data_size ->
        data 19 + data 20 = data 9 -> length (stream_map h) = 8%nat ->
       exists h' tr, ParseOpusHeader data data_size h [] = Some (true, h', tr)
         /\ channels h' = data 9
         /\ channel_mapping h' = data 18
         /\ num_streams h' = data 19
         /\ num_coupled h' = data 20
         /\ stream_map h' =
            bytes_at data 21 (Z.to_nat (data 9))
              ++ skipn (Z.to_nat (data 9)) (stream_map h)
         /\ read_offsets tr =
            [9; 10; 11; 16; 17; 18; 19; 20] ++ zseq 21 (Z.to_nat (data 9))).
Proof.
  intros data data_size h Hs Hm.
  assert (Hbad : data 9 < 1 \/ 8 < data 9 ->
                 exists h' tr, ParseOpusHeader data data_size h [] = Some (false, h', tr)).
  { intros Hc. rewrite parse_bad_channels by lia. eauto. }
  split; [|split; [|split]].
  - intros Hshort.
    destruct (Z_lt_le_dec (data 9) 1); [apply Hbad; lia|].
    destruct (Z_lt_le_dec 8 (data 9)); [apply Hbad; lia|].
    rewrite parse_short_map by lia. eauto.
  - intros Hsum.
    destruct (Z_lt_le_dec (data 9) 1); [apply Hbad; lia|].
    destruct (Z_lt_le_dec 8 (data 9)); [apply Hbad; lia|].
    destruct (Z_lt_le_dec data_size (21 + data 9)).
    + rewrite parse_short_map by lia. eauto.
    + rewrite parse_inconsistent by lia. eauto.
  - intros Hc Hlen Hsum. rewrite parse_inconsistent by lia.
    do 2 eexists. split; reflexivity.
  - intros Hc Hlen Hsum Hmap. rewrite parse_mapped by lia.
    do 2 eexists. split; [reflexivity|].
    pose proof (copy_stream_map_fields data (Z.to_nat (data 9)) 0
                  (set_num_coupled (data 20)
                     (set_num_streams (data 19) (fixed_fields data h)))) as F.
    cbv zeta in F. destruct F as (F1 & F2 & F3 & F4 & _).
    repeat (split; [assumption|]).
    split.
    + rewrite copy_stream_map_map; [reflexivity|lia|].
      simpl stream_map. rewrite Hmap. simpl. lia.
    + rewrite app_nil_l, !read_offsets_app. simpl read_offsets at 1 2.
      rewrite read_offsets_stream_map_reads. reflexivity.
Qed.

(** C8 at work: the six-channel header with four streams, two of them
    coupled, and the stream map 5, 4, 3, 2, 1, 0. *)
Lemma mapping_path_witness :
  exists h' tr,
    ParseOpusHeader (mem_of_list 0 six_channel_head) 27 header0 [] = Some (true, h', tr)
    /\ channels h' = 6 /\ channel_mapping h' = 1
    /\ num_streams h' = 4 /\ num_coupled h' = 2
    /\ stream_map h' = [5; 4; 3; 2; 1; 0; 0; 0]
    /\ read_offsets tr = [9; 10; 11; 16; 17; 18; 19; 20; 21; 22; 23; 24; 25; 26].
Proof.
  assert (Hs : 19 <= 27) by lia.
  assert (Hm : mem_of_list 0 six_channel_head 18 <> 0) by (vm_compute; discriminate).
  destruct (mapping_path (mem_of_list 0 six_channel_head) 27 header0 Hs Hm)
    as (_ & _ & _ & Hok).
  apply Hok; vm_compute; try reflexivity; try split; discriminate.
Defined.

(** ** The memory after WriteOpusHeader *)

Lemma fill_run v n : forall i m t,
  for_loop n i (fun (i : Z) (s : mem) (t : trace) =>
                  Some (tt, upd s i v, t ++ [Write i])) m t =
  Some (tt, fill n i v m, t ++ map Write (zseq i n)).
Proof.
  induction n as [|n IH]; intros i m t; simpl for_loop; run.
  - simpl. now rewrite app_nil_r.
  - rewrite IH. simpl. now rewrite <- app_assoc.
Qed.

Lemma memset_run v n m t :
  memset v n m t =
  Some (tt, fill (Z.to_nat n) 0 v m, t ++ map Write (zseq 0 (Z.to_nat n))).
Proof. unfold memset. run. apply fill_run. Qed.

Lemma upd_same m off v j : j = off -> upd m off v j = v.
Proof. intros ->. unfold upd. now rewrite Z.eqb_refl. Qed.

Lemma upd_other m off v j : j <> off -> upd m off v j = m j.
Proof.
  intros H. unfold upd. destruct (Z.eqb_spec j off); [contradiction|reflexivity].
Qed.

Lemma fill_spec v n : forall i m j,
  fill n i v m j = if (i <=? j) && (j <? i + Z.of_nat n) then v else m j.
Proof.
  induction n as [|n IH]; intros i m j.
  - simpl fill.
    destruct (Z.leb_spec i j); destruct (Z.ltb_spec j (i + Z.of_nat 0));
      simpl; try reflexivity; lia.
  - simpl fill. rewrite IH. unfold upd.
    destruct (Z.leb_spec (i + 1) j); destruct (Z.ltb_spec j (i + 1 + Z.of_nat n));
      destruct (Z.leb_spec i j); destruct (Z.ltb_spec j (i + Z.of_nat (S n)));
      destruct (Z.eqb_spec j i); simpl; try reflexivity; lia.
Qed.

Lemma fill_inside v n i m j : i <= j < i + Z.of_nat n -> fill n i v m j = v.
Proof.
  intros H. rewrite fill_spec.
  destruct (Z.leb_spec i j); destruct (Z.ltb_spec j (i + Z.of_nat n));
    simpl; try reflexivity; lia.
Qed.

Lemma fill_outside v n i m j : j < i \/ i + Z.of_nat n <= j -> fill n i v m j = m j.
Proof.
  intros H. rewrite fill_spec.
  destruct (Z.leb_spec i j); destruct (Z.ltb_spec j (i + Z.of_nat n));
    simpl; try reflexivity; lia.
Qed.

(** Read a memory built by stores at known offsets. *)
Ltac read_mem :=
  repeat first [ rewrite upd_same by lia | rewrite upd_other by lia ];
  try (rewrite fill_inside by lia); try (rewrite fill_outside by lia).

Ltac list_eq :=
  repeat (apply (f_equal2 (@cons Z)); [read_mem; try reflexivity|]);
  try reflexivity.

Ltac lit_OpusHead :=
  let x := eval vm_compute in (firstn 8 (bytes_of_string "OpusHead")) in
  change (firstn 8 (bytes_of_string "OpusHead")) with x.

Ltac lit_table :=
  repeat match goal with
  | |- context [channel_map_at ?r ?c] =>
      let v := eval vm_compute in (channel_map_at r c) in
      change (channel_map_at r c) with v
  end.

Lemma WriteOpusHeader_default h rate size m t :
  channels h <= 2 -> to_size_t (21 + channels h) <= size ->
  exists m',
    WriteOpusHeader h rate size m t =
    Some (19, m', t ++ map Write (zseq 0 (Z.to_nat size) ++ zseq 0 19))
    /\ bytes_at m' 0 19 = head_bytes h rate ++ [0]
    /\ (19 <= size -> written m m' size (head_bytes h rate ++ [0])).
Proof.
  intros Hc Hs. unfold WriteOpusHeader. consts. not_taken.
  rewrite memset_run. lit_OpusHead.
  cbv beta iota delta [memcpy le_bytes]. run. not_taken.
  eexists. split; [|split].
  - rewrite <- !app_assoc, map_app. reflexivity.
  - unfold head_bytes.
    change (bytes_of_string "OpusHead") with [79; 112; 117; 115; 72; 101; 97; 100].
    cbv [le_bytes app length bytes_at]. list_eq.
  - intros Hsz. unfold written, head_bytes.
    change (bytes_of_string "OpusHead") with [79; 112; 117; 115; 72; 101; 97; 100].
    cbv [le_bytes app length bytes_at]. split; [|split].
    + list_eq.
    + intros j Hj. read_mem. reflexivity.
    + intros j Hj. read_mem. reflexivity.
Qed.

Lemma WriteOpusHeader_too_small h rate size m t :
  size < to_size_t (21 + channels h) ->
  WriteOpusHeader h rate size m t = Some (-1, m, t ++ [Log OutputBufferTooSmall]).
Proof. intros Hs. unfold WriteOpusHeader. consts. taken. reflexivity. Qed.

Lemma WriteOpusHeader_mapped h rate size m t :
  3 <= channels h <= 8 -> 21 + channels h <= size ->
  exists m',
    WriteOpusHeader h rate size m t =
    Some (22 + channels h, m',
          t ++ map Write (zseq 0 (Z.to_nat size)
                            ++ zseq 0 (Z.to_nat (21 + channels h))))
    /\ written m m' size
         (head_bytes h rate ++ [1; channels h; 0] ++ canonical_map (channels h)).
Proof.
  intros Hc Hs. unfold WriteOpusHeader, head_bytes. consts.
  rewrite to_size_t_small by lia. not_taken.
  rewrite memset_run. lit_OpusHead.
  cbv beta iota delta [memcpy le_bytes]. run. taken.
  rewrite (to_uint8_small (channels h)) by lia.
  change (bytes_of_string "OpusHead") with [79; 112; 117; 115; 72; 101; 97; 100].
  assert (E : channels h = 3 \/ channels h = 4 \/ channels h = 5 \/
              channels h = 6 \/ channels h = 7 \/ channels h = 8) by lia.
  destruct E as [E|[E|[E|[E|[E|E]]]]]; rewrite E in *;
    match goal with
    | |- context [Z.to_nat (21 + ?c)] =>
        let n := eval vm_compute in (Z.to_nat c) in
        let k := eval vm_compute in (Z.to_nat (21 + c)) in
        let r := eval vm_compute in (canonical_map c) in
        let l := eval vm_compute in (to_int (to_size_t (21 + c + 1))) in
        let l' := eval vm_compute in (22 + c) in
        change (Z.to_nat c) with n; change (Z.to_nat (21 + c)) with k;
        change (canonical_map c) with r;
        change (to_int (to_size_t (21 + c + 1))) with l;
        change (22 + c) with l'
    end;
    cbv beta iota delta [for_loop]; lit_table; run;
    (eexists; split;
     [ rewrite <- !app_assoc, map_app; reflexivity
     | unfold written; cbv [le_bytes app length bytes_at];
       split; [list_eq | split; intros j Hj; read_mem; reflexivity] ]).
Qed.

Lemma nth_bytes_at m n : forall off k,
  (k < n)%nat -> nth k (bytes_at m off n) 0 = m (off + Z.of_nat k).
Proof.
  induction n as [|n IH]; intros off k Hk; [lia|].
  destruct k as [|k]; simpl bytes_at; simpl nth.
  - f_equal. lia.
  - rewrite IH by lia. f_equal. lia.
Qed.

Lemma bytes_at_app m a : forall off b,
  bytes_at m off (a + b) = bytes_at m off a ++ bytes_at m (off + Z.of_nat a) b.
Proof.
  induction a as [|a IH]; intros off b.
  - simpl. f_equal. lia.
  - change (S a + b)%nat with (S (a + b)). simpl bytes_at. rewrite IH.
    simpl. do 3 f_equal. lia.
Qed.

Lemma bytes_at_length m n : forall off, length (bytes_at m off n) = n.
Proof. induction n as [|n IH]; intros off; simpl; [reflexivity | now rewrite IH]. Qed.

(** The bytes of a written header from offset [a], [b] of them. *)
Lemma written_slice m m' size bs a b :
  written m m' size bs -> (a + b <= length bs)%nat ->
  bytes_at m' (Z.of_nat a) b = firstn b (skipn a bs).
Proof.
  intros (Hb & _) Hab.
  replace (length bs) with (a + (b + (length bs - a - b)))%nat in Hb by lia.
  rewrite !bytes_at_app in Hb. rewrite <- Hb.
  rewrite skipn_app, bytes_at_length, Nat.sub_diag.
  rewrite (skipn_all2 (bytes_at m' 0 a)) by (rewrite bytes_at_length; lia).
  simpl skipn. simpl app.
  rewrite firstn_app, bytes_at_length, Nat.sub_diag. simpl firstn at 2.
  rewrite app_nil_r.
  rewrite firstn_all2 by (rewrite bytes_at_length; lia).
  reflexivity.
Qed.

(** The byte of a written header at offset [k]. *)
Lemma written_at m m' size bs k :
  written m m' size bs -> (k < length bs)%nat -> m' (Z.of_nat k) = nth k bs 0.
Proof.
  intros (Hb & _) Hk.
  transitivity (nth k (bytes_at m' 0 (length bs)) 0).
  - rewrite nth_bytes_at by exact Hk. reflexivity.
  - now rewrite Hb.
Qed.

Lemma channels_3_to_8 c :
  3 <= c <= 8 -> c = 3 \/ c = 4 \/ c = 5 \/ c = 6 \/ c = 7 \/ c = 8.
Proof. lia. Qed.

Lemma mapped_header_length h rate :
  3 <= channels h <= 8 ->
  length (head_bytes h rate ++ [1; channels h; 0] ++ canonical_map (channels h))
  = Z.to_nat (21 + channels h).
Proof.
  intros Hc.
  destruct (channels_3_to_8 _ Hc) as [E|[E|[E|[E|[E|E]]]]]; rewrite E; reflexivity.
Qed.

(** ** Claims on WriteOpusHeader *)

(** C4 (writer postcondition).  For a header of 3 to 8 channels and a
    capacity of at least 21 + channels, [WriteOpusHeader] returns
    21 + channels + 1 and leaves 1 at offset 18, the channel count at offset
    19, 0 at offset 20 and, from offset 21, the [channels] entries of the
    table row of that channel count; the rows are the canonical ones.  For at
    most 2 channels and a capacity that passes the size test it returns 19
    and leaves 0 at offset 18. *)
Theorem writer_postcondition :
  forall (h : OpusHeader) (rate size : Z) (m : mem),
    (3 <= channels h <= 8 -> 21 + channels h <= size ->
       exists m' tr,
         WriteOpusHeader h rate size m [] = Some (21 + channels h + 1, m', tr)
         /\ m' 18 = 1 /\ m' 19 = channels h /\ m' 20 = 0
         /\ bytes_at m' 21 (Z.to_nat (channels h)) = canonical_map (channels h))
    /\ (channels h <= 2 -> to_size_t (21 + channels h) <= size ->
       exists m' tr,
         WriteOpusHeader h rate size m [] = Some (19, m', tr) /\ m' 18 = 0)
    /\ map canonical_map [3; 4; 5; 6; 7; 8] =
       [ [0; 2; 1]; [0; 1; 2; 3]; [0; 4; 1; 2; 3]; [0; 4; 1; 2; 3; 5];
         [0; 4; 1; 2; 3; 5; 6]; [0; 6; 1; 2; 3; 4; 5; 7] ].
Proof.
  intros h rate size m. split; [|split].
  - intros Hc Hs.
    destruct (WriteOpusHeader_mapped h rate size m [] Hc Hs) as (m' & Hrun & Hw).
    exists m'. eexists. split.
    { rewrite Hrun. replace (21 + channels h + 1) with (22 + channels h) by lia.
      reflexivity. }
    pose proof (mapped_header_length h rate Hc) as Hlen.
    split; [|split; [|split]].
    + apply (written_at _ _ _ _ 18 Hw). rewrite Hlen. lia.
    + apply (written_at _ _ _ _ 19 Hw). rewrite Hlen. lia.
    + apply (written_at _ _ _ _ 20 Hw). rewrite Hlen. lia.
    + change 21 with (Z.of_nat 21) at 1.
      rewrite (written_slice _ _ _ _ 21 (Z.to_nat (channels h)) Hw)
        by (rewrite Hlen; lia).
      destruct (channels_3_to_8 _ Hc) as [E|[E|[E|[E|[E|E]]]]]; rewrite E;
        reflexivity.
  - intros Hc Hs.
    destruct (WriteOpusHeader_default h rate size m [] Hc Hs) as (m' & Hrun & Hb & _).
    exists m'. eexists. split; [exact Hrun|].
    pose proof (nth_bytes_at m' 19 0 18 ltac:(lia)) as Hn.
    rewrite Hb in Hn. simpl in Hn. symmetry. exact Hn.
  - reflexivity.
Qed.

(** C4 at work: the six-channel and the stereo record written into 64
    bytes. *)
Lemma writer_postcondition_witness :
  (exists m' tr,
     WriteOpusHeader six_channels 48000 64 stale [] = Some (28, m', tr)
     /\ m' 18 = 1 /\ m' 19 = 6 /\ m' 20 = 0
     /\ bytes_at m' 21 6 = [0; 4; 1; 2; 3; 5])
  /\ (exists m' tr,
     WriteOpusHeader stereo 48000 64 stale [] = Some (19, m', tr) /\ m' 18 = 0).
Proof.
  split.
  - apply (proj1 (writer_postcondition six_channels 48000 64 stale));
      vm_compute; try split; discriminate.
  - apply (proj1 (proj2 (writer_postcondition stereo 48000 64 stale)));
      vm_compute; discriminate.
Defined.

(** C5 (bounds safety).  With [data_size] below 19, [ParseOpusHeader] returns
    false, leaves the record as it was and reads no byte at all, so none at
    an offset at or beyond [data_size].  With a capacity below 21 + channels
    ([channels] an [int], the capacity a [size_t]), [WriteOpusHeader] returns
    -1, leaves the memory as it was and writes no byte at all, so none at an
    offset at or beyond the capacity. *)
Theorem bounds_safety :
  (forall (data : mem) (data_size : Z) (h : OpusHeader),
      data_size < 19 ->
      exists tr,
        ParseOpusHeader data data_size h [] = Some (false, h, tr)
        /\ read_offsets tr = []
        /\ (forall o, In o (read_offsets tr) -> o < data_size))
  /\ (forall (h : OpusHeader) (rate size : Z) (m : mem),
      0 <= size -> channels h < 2 ^ 31 -> size < 21 + channels h ->
      exists tr,
        WriteOpusHeader h rate size m [] = Some (-1, m, tr)
        /\ write_offsets tr = []
        /\ (forall o, In o (write_offsets tr) -> o < size)).
Proof.
  split.
  - intros data data_size h Hs. rewrite parse_too_small by exact Hs.
    eexists. split; [reflexivity|]. split; [reflexivity|].
    simpl. intros o [].
  - intros h rate size m H0 Hint Hs.
    rewrite WriteOpusHeader_too_small by (rewrite to_size_t_small; lia).
    eexists. split; [reflexivity|]. split; [reflexivity|].
    simpl. intros o [].
Qed.

(** C5 at work: the stereo header cut to 18 bytes, and the six-channel
    record with a capacity of 26. *)
Lemma bounds_safety_witness :
  (exists tr,
     ParseOpusHeader (mem_of_list 0 stereo_head) 18 header0 [] = Some (false, header0, tr)
     /\ read_offsets tr = []
     /\ (forall o, In o (read_offsets tr) -> o < 18))
  /\ (exists tr,
     WriteOpusHeader six_channels 48000 26 stale [] = Some (-1, stale, tr)
     /\ write_offsets tr = []
     /\ (forall o, In o (write_offsets tr) -> o < 26)).
Proof.
  split.
  - apply (proj1 bounds_safety). lia.
  - apply (proj2 bounds_safety six_channels 48000 26 stale); vm_compute;
      (reflexivity || discriminate).
Defined.

(** C10 (capacity of exactly 21 + channels).  For a header of 3 to 8 channels
    and a capacity of exactly 21 + channels, [WriteOpusHeader] succeeds and
    returns 21 + channels + 1, which is more than the capacity.  Every write
    of the call is below the capacity, so the last byte of the returned
    count, at offset 21 + channels, is neither zero-filled nor written: it
    holds what it held before the call. *)
Theorem pad_byte_beyond_capacity :
  forall (h : OpusHeader) (rate : Z) (m : mem),
    3 <= channels h <= 8 ->
    exists m' tr,
      WriteOpusHeader h rate (21 + channels h) m [] = Some (21 + channels h + 1, m', tr)
      /\ 21 + channels h < 21 + channels h + 1
      /\ (forall o, In o (write_offsets tr) -> 0 <= o < 21 + channels h)
      /\ ~ In (21 + channels h) (write_offsets tr)
      /\ m' (21 + channels h) = m (21 + channels h).
Proof.
  intros h rate m Hc.
  destruct (WriteOpusHeader_mapped h rate (21 + channels h) m [] Hc ltac:(lia))
    as (m' & Hrun & Hw).
  exists m'. eexists. split.
  { rewrite Hrun. replace (21 + channels h + 1) with (22 + channels h) by lia.
    reflexivity. }
  assert (Hin : forall o,
             In o (write_offsets
                     ([] ++ map Write (zseq 0 (Z.to_nat (21 + channels h))
                                         ++ zseq 0 (Z.to_nat (21 + channels h)))))
             -> 0 <= o < 21 + channels h).
  { intros o. rewrite app_nil_l, write_offsets_map_Write, in_app_iff, !in_zseq. lia. }
  split; [lia|]. split; [exact Hin|]. split.
  - intros Habs. apply Hin in Habs. lia.
  - destruct Hw as (_ & _ & Hframe). apply Hframe. lia.
Qed.

(** C10 at work: the six-channel record with a capacity of 27. *)
Lemma pad_byte_beyond_capacity_witness :
  exists m' tr,
    WriteOpusHeader six_channels 48000 27 stale [] = Some (28, m', tr)
    /\ 27 < 28
    /\ (forall o, In o (write_offsets tr) -> 0 <= o < 27)
    /\ ~ In 27 (write_offsets tr)
    /\ m' 27 = 170.
Proof.
  apply (pad_byte_beyond_capacity six_channels 48000 stale).
  vm_compute. split; discriminate.
Defined.

(** ** Claim on the round trip *)

Lemma low_byte_mod x : (x mod 65536) mod 256 = x mod 256.
Proof. Z.to_euclidean_division_equations. lia. Qed.

Lemma high_byte_mod x : ((x mod 65536) / 256) mod 256 = (x / 256) mod 256.
Proof. Z.to_euclidean_division_equations. lia. Qed.

(** [ReadLE16] on the two bytes [memcpy] stored for a 16-bit field. *)
Lemma le16_at_bytes (m : mem) off x :
  0 <= off < 2 ^ 32 - 1 ->
  m off = x mod 256 -> m (off + 1) = (x / 256) mod 256 ->
  le16_at m off = x mod 2 ^ 16.
Proof.
  intros Hoff H0 H1. unfold le16_at.
  rewrite to_uint32_small by lia. rewrite H0, H1.
  rewrite (to_uint16_small (x mod 256))
    by (pose proof (Z.mod_pos_bound x 256 ltac:(lia)); lia).
  rewrite <- low_byte_mod, <- high_byte_mod.
  change (2 ^ 16) with 65536.
  rewrite lor_le_bytes by (apply Z.mod_pos_bound; lia).
  apply to_uint16_small. apply Z.mod_pos_bound. lia.
Qed.

Lemma header_byte m' n bs k :
  bytes_at m' 0 n = bs -> (k < n)%nat -> m' (Z.of_nat k) = nth k bs 0.
Proof.
  intros Hb Hk. rewrite <- Hb. rewrite nth_bytes_at by exact Hk. reflexivity.
Qed.

(** C1, counterexample.  The six-channel header with four streams, two of
    them coupled, satisfies the invariants, but its round trip fails: the
    parse of what was written has six streams and none coupled. *)
Lemma round_trip_counterexample :
  valid_header six_channels /\ 21 + channels six_channels <= 64
  /\ ~ round_trip six_channels 48000 64 stale header0.
Proof.
  split; [|split].
  - unfold valid_header. simpl. repeat split; try lia; discriminate.
  - simpl. lia.
  - intros (n & m' & tr & h' & tr' & Hw & Hp & _ & _ & _ & _ & _ & Hmap).
    destruct (WriteOpusHeader_mapped six_channels 48000 64 stale []
                ltac:(simpl; lia) ltac:(simpl; lia)) as (m1 & Hrun & Hwr).
    rewrite Hrun in Hw. injection Hw as <- <- <-.
    assert (B9 : m1 9 = 6) by (apply (written_at _ _ _ _ 9 Hwr); simpl; lia).
    assert (B18 : m1 18 = 1) by (apply (written_at _ _ _ _ 18 Hwr); simpl; lia).
    assert (B19 : m1 19 = 6) by (apply (written_at _ _ _ _ 19 Hwr); simpl; lia).
    assert (B20 : m1 20 = 0) by (apply (written_at _ _ _ _ 20 Hwr); simpl; lia).
    rewrite parse_mapped in Hp by (rewrite ?B9, ?B18, ?B19, ?B20; simpl; lia).
    injection Hp as <- _.
    destruct (Hmap ltac:(simpl; lia)) as (Hns & _).
    pose proof (copy_stream_map_fields m1 (Z.to_nat (m1 9)) 0
                  (set_num_coupled (m1 20)
                     (set_num_streams (m1 19) (fixed_fields m1 header0)))) as F.
    cbv zeta in F. destruct F as (_ & _ & F3 & _).
    rewrite F3 in Hns. simpl in Hns. rewrite B19 in Hns. discriminate.
Qed.

Ltac fields :=
  cbn [fixed_fields set_channels set_channel_mapping set_num_streams
       set_num_coupled set_gain_db set_skip_samples set_stream_map
       channels channel_mapping num_streams num_coupled gain_db skip_samples
       stream_map].

Lemma default_stream_map (l : list Z) :
  length l = 8%nat -> firstn 2 (list_set 1 1 (list_set 0 0 l)) = [0; 1].
Proof.
  destruct l as [|a [|b l]]; simpl; intros H; try discriminate. reflexivity.
Qed.

(** Writing a header and parsing what was written. *)
Lemma write_then_parse h rate size m h0 :
  1 <= channels h <= 8 ->
  0 <= skip_samples h < 2 ^ 16 -> - 2 ^ 15 <= gain_db h < 2 ^ 15 ->
  21 + channels h <= size -> length (stream_map h0) = 8%nat ->
  exists n m' tr h' tr',
    WriteOpusHeader h rate size m [] = Some (n, m', tr)
    /\ ParseOpusHeader m' n h0 [] = Some (true, h', tr')
    /\ channels h' = channels h
    /\ skip_samples h' = skip_samples h
    /\ gain_db h' = gain_db h
    /\ writer_mapping h h'.
Proof.
  intros Hc Hskip Hgain Hs Hlen0.
  destruct (Z_le_gt_dec (channels h) 2) as [Hle|Hgt].
  - destruct (WriteOpusHeader_default h rate size m [] Hle
                ltac:(rewrite to_size_t_small; lia)) as (m' & Hrun & Hb & _).
    assert (B9 : m' 9 = channels h).
    { rewrite <- (to_uint8_small (channels h)) by lia.
      apply (header_byte _ _ _ 9 Hb). lia. }
    assert (B10 : m' 10 = skip_samples h mod 256)
      by (apply (header_byte _ _ _ 10 Hb); lia).
    assert (B11 : m' (10 + 1) = (skip_samples h / 256) mod 256)
      by (apply (header_byte _ _ _ 11 Hb); lia).
    assert (B16 : m' 16 = gain_db h mod 256)
      by (apply (header_byte _ _ _ 16 Hb); lia).
    assert (B17 : m' (16 + 1) = (gain_db h / 256) mod 256)
      by (apply (header_byte _ _ _ 17 Hb); lia).
    assert (B18 : m' 18 = 0) by (apply (header_byte _ _ _ 18 Hb); lia).
    do 5 eexists. split; [exact Hrun|].
    rewrite parse_default_layout by (rewrite ?B9, ?B18; lia).
    split; [reflexivity|]. fields.
    split; [exact B9|]. split; [|split; [|split]].
    + rewrite (le16_at_bytes m' 10 (skip_samples h)) by (assumption || lia).
      apply Z.mod_small. lia.
    + rewrite (le16_at_bytes m' 16 (gain_db h)) by (assumption || lia).
      apply to_int16_of_uint16. lia.
    + intros _. fields. rewrite B9.
      repeat split; try assumption. now apply default_stream_map.
    + intros Habs. lia.
  - destruct (WriteOpusHeader_mapped h rate size m [] ltac:(lia) Hs)
      as (m' & Hrun & Hw).
    pose proof (mapped_header_length h rate ltac:(lia)) as Hlen.
    assert (B9 : m' 9 = channels h).
    { rewrite <- (to_uint8_small (channels h)) by lia.
      apply (written_at _ _ _ _ 9 Hw). rewrite Hlen. lia. }
    assert (B10 : m' 10 = skip_samples h mod 256)
      by (apply (written_at _ _ _ _ 10 Hw); rewrite Hlen; lia).
    assert (B11 : m' (10 + 1) = (skip_samples h / 256) mod 256)
      by (apply (written_at _ _ _ _ 11 Hw); rewrite Hlen; lia).
    assert (B16 : m' 16 = gain_db h mod 256)
      by (apply (written_at _ _ _ _ 16 Hw); rewrite Hlen; lia).
    assert (B17 : m' (16 + 1) = (gain_db h / 256) mod 256)
      by (apply (written_at _ _ _ _ 17 Hw); rewrite Hlen; lia).
    assert (B18 : m' 18 = 1)
      by (apply (written_at _ _ _ _ 18 Hw); rewrite Hlen; lia).
    assert (B19 : m' 19 = channels h)
      by (apply (written_at _ _ _ _ 19 Hw); rewrite Hlen; lia).
    assert (B20 : m' 20 = 0)
      by (apply (written_at _ _ _ _ 20 Hw); rewrite Hlen; lia).
    assert (Bmap : bytes_at m' 21 (Z.to_nat (channels h)) = canonical_map (channels h)).
    { change 21 with (Z.of_nat 21) at 1.
      rewrite (written_slice _ _ _ _ 21 (Z.to_nat (channels h)) Hw)
        by (rewrite Hlen; lia).
      destruct (channels_3_to_8 (channels h) ltac:(lia)) as [E|[E|[E|[E|[E|E]]]]];
        rewrite E; reflexivity. }
    do 5 eexists. split; [exact Hrun|].
    rewrite parse_mapped by (rewrite ?B9, ?B18, ?B19, ?B20; lia).
    split; [reflexivity|].
    pose proof (copy_stream_map_fields m' (Z.to_nat (m' 9)) 0
                  (set_num_coupled (m' 20)
                     (set_num_streams (m' 19) (fixed_fields m' h0)))) as F.
    cbv zeta in F. destruct F as (F1 & F2 & F3 & F4 & F5 & F6).
    rewrite F1, F5, F6. fields.
    split; [exact B9|]. split; [|split; [|split]].
    + rewrite (le16_at_bytes m' 10 (skip_samples h)) by (assumption || lia).
      apply Z.mod_small. lia.
    + rewrite (le16_at_bytes m' 16 (gain_db h)) by (assumption || lia).
      apply to_int16_of_uint16. lia.
    + intros Habs. lia.
    + intros _. rewrite F2, F3, F4. fields.
      split; [exact B18|]. split; [exact B19|]. split; [exact B20|].
      rewrite copy_stream_map_map by (fields; rewrite ?B9; lia).
      fields. rewrite B9. change (Z.to_nat 0) with 0%nat. simpl firstn at 2.
      simpl app. change (21 + 0) with 21. rewrite Bmap.
      rewrite firstn_app.
      assert (L : length (canonical_map (channels h)) = Z.to_nat (channels h)).
      { rewrite <- Bmap. apply bytes_at_length. }
      rewrite L, Nat.sub_diag. simpl firstn at 2. rewrite app_nil_r.
      apply firstn_all2. lia.
Qed.

(** C1, amended.  For a header of 1 to 8 channels with a 16-bit unsigned
    pre-skip and a 16-bit signed gain, any sample rate and any capacity of
    at least 21 + channels, [WriteOpusHeader] succeeds and [ParseOpusHeader],
    on the written memory over the returned length, succeeds and reproduces
    [channels], [skip_samples] and [gain_db].  The mapping fields it yields
    are the writer's, not the record's: mapping family 0 and the defaults for
    at most 2 channels; mapping family 1, [channels] streams, none coupled
    and the canonical table row above 2 channels.  So the round trip as C1
    states it holds exactly for the records that hold these values already. *)
Theorem round_trip_amended :
  forall (h : OpusHeader) (rate size : Z) (m : mem) (h0 : OpusHeader),
    1 <= channels h <= 8 ->
    0 <= skip_samples h < 2 ^ 16 -> - 2 ^ 15 <= gain_db h < 2 ^ 15 ->
    21 + channels h <= size -> length (stream_map h0) = 8%nat ->
    (exists n m' tr h' tr',
        WriteOpusHeader h rate size m [] = Some (n, m', tr)
        /\ ParseOpusHeader m' n h0 [] = Some (true, h', tr')
        /\ channels h' = channels h
        /\ skip_samples h' = skip_samples h
        /\ gain_db h' = gain_db h
        /\ writer_mapping h h')
    /\ (round_trip h rate size m h0 <-> holds_writer_mapping h).
Proof.
  intros h rate size m h0 Hc Hskip Hgain Hs Hlen0.
  pose proof (write_then_parse h rate size m h0 Hc Hskip Hgain Hs Hlen0) as W.
  split; [exact W|].
  destruct W as (n & m' & tr & h' & tr' & Hw & Hp & E1 & E2 & E3 & Hlow & Hhigh).
  split.
  - intros (n1 & m1 & tr1 & h1 & tr1' & Hw1 & Hp1 & _ & _ & _ & R4 & R5 & R6).
    rewrite Hw in Hw1. injection Hw1 as <- <- <-.
    rewrite Hp in Hp1. injection Hp1 as <- <-.
    split.
    + intros Hle. destruct (Hlow Hle) as (L1 & _). congruence.
    + intros Hgt. destruct (Hhigh Hgt) as (L1 & L2 & L3 & L4).
      destruct (R6 Hgt) as (R61 & R62 & R63).
      repeat split; congruence.
  - intros (Own1 & Own2).
    exists n, m', tr, h', tr'.
    split; [exact Hw|]. split; [exact Hp|].
    split; [exact E1|]. split; [exact E2|]. split; [exact E3|].
    split; [|split].
    + destruct (Z_le_gt_dec (channels h) 2) as [Hle|Hgt].
      * destruct (Hlow Hle) as (L1 & _). rewrite (Own1 Hle). exact L1.
      * destruct (Hhigh ltac:(lia)) as (L1 & _).
        destruct (Own2 ltac:(lia)) as (O1 & _). congruence.
    + intros Hle. destruct (Hlow Hle) as (_ & L2 & L3 & L4). auto.
    + intros Hgt. destruct (Hhigh Hgt) as (_ & L2 & L3 & L4).
      destruct (Own2 Hgt) as (_ & O2 & O3 & O4).
      repeat split; congruence.
Qed.

(** The witness of C1, amended: the stereo header makes the round trip. *)
Lemma round_trip_amended_witness : round_trip stereo 48000 64 stale header0.
Proof.
  apply (proj2 (round_trip_amended stereo 48000 64 stale header0
                  ltac:(simpl; lia) ltac:(simpl; lia) ltac:(simpl; lia)
                  ltac:(simpl; lia) eq_refl)).
  split; simpl; intros H; [reflexivity | lia].
Defined.

(** ** WriteOpusHeaders *)

Lemma WriteOpusHeader_ok h rate size m t :
  1 <= channels h <= 8 -> 21 + channels h <= size ->
  exists m',
    WriteOpusHeader h rate size m t =
    Some (written_length h, m',
          t ++ map Write (zseq 0 (Z.to_nat size)
                            ++ zseq 0 (length (wire_bytes h rate))))
    /\ written m m' size (wire_bytes h rate).
Proof.
  intros Hc Hs. unfold written_length, wire_bytes. rewrite Z.gtb_ltb.
  destruct (Z.ltb_spec 2 (channels h)) as [Hgt|Hle].
  - destruct (WriteOpusHeader_mapped h rate size m t ltac:(lia) Hs) as (m' & Hrun & Hw).
    exists m'. split; [|exact Hw].
    rewrite Hrun, mapped_header_length by lia.
    replace (21 + channels h + 1) with (22 + channels h) by lia. reflexivity.
  - destruct (WriteOpusHeader_default h rate size m t Hle
                ltac:(rewrite to_size_t_small; lia)) as (m' & Hrun & _ & Hw).
    exists m'. split; [exact Hrun|]. apply Hw. lia.
Qed.

Lemma written_length_range h :
  1 <= channels h <= 8 -> 19 <= written_length h <= 30.
Proof.
  intros Hc. unfold written_length. rewrite Z.gtb_ltb.
  destruct (Z.ltb_spec 2 (channels h)); lia.
Qed.

Ltac lit_markers :=
  let d := eval vm_compute in AOPUS_CSD_CODEC_DELAY_MARKER in
  let p := eval vm_compute in AOPUS_CSD_SEEK_PREROLL_MARKER in
  change AOPUS_CSD_CODEC_DELAY_MARKER with d;
  change AOPUS_CSD_SEEK_PREROLL_MARKER with p.

Section UnifiedWriter.

Variable MINSIZE : Z.
Variables (h : OpusHeader) (rate size delay preroll : Z) (m : mem) (t : trace).
Hypothesis Hc : 1 <= channels h <= 8.
Hypothesis Hmin : MINSIZE <= size.
Hypothesis Hcap : 21 + channels h <= size.
Hypothesis Hsize : 48 <= size < 2 ^ 64.

(** The call succeeds when the header leaves more than 48 bytes. *)
Lemma WriteOpusHeaders_ok :
  written_length h + 48 < size ->
  exists m0 m' tr tr',
    WriteOpusHeader h rate size m t = Some (written_length h, m0, tr)
    /\ WriteOpusHeaders MINSIZE h rate size delay preroll m t =
       Some (written_length h + 48, m', tr ++ tr')
    /\ write_offsets tr' = zseq (written_length h) 48
    /\ bytes_at m' (written_length h) 48 = trailer_bytes delay preroll
    /\ (forall j, j < written_length h \/ written_length h + 48 <= j -> m' j = m0 j).
Proof.
  intros Hroom.
  destruct (WriteOpusHeader_ok h rate size m t Hc Hcap) as (m0 & Hrun & Hw).
  pose proof (written_length_range h Hc) as Hlen.
  remember (written_length h) as L eqn:HL. clear HL.
  exists m0. do 3 eexists. split; [exact Hrun|].
  unfold WriteOpusHeaders. not_taken. rewrite Hrun. run. not_taken.
  consts. change (2 * (8 + 8 + 8)) with 48.
  rewrite !to_size_t_small by lia. not_taken.
  lit_markers. change (Z.to_nat 8) with 8%nat.
  cbv beta iota delta [memcpy le_bytes firstn]. run.
  split; [|split; [|split]].
  - rewrite <- !app_assoc.
    replace (L + 8 + 8 + 8 + 8 + 8 + 8) with (L + 48) by lia.
    reflexivity.
  - cbv [app write_offsets flat_map zseq].
    repeat (apply (f_equal2 (@cons Z)); [lia|]). reflexivity.
  - unfold trailer_bytes. lit_markers. consts.
    cbv [le_bytes app bytes_at]. list_eq.
  - intros j Hj. read_mem. reflexivity.
Qed.

(** The call fails when the header leaves 48 bytes or fewer, exactly 48
    included. *)
Lemma WriteOpusHeaders_no_room :
  size <= written_length h + 48 ->
  exists m0 tr,
    WriteOpusHeader h rate size m t = Some (written_length h, m0, tr)
    /\ WriteOpusHeaders MINSIZE h rate size delay preroll m t =
       Some (-1, m0, tr ++ [Log NoRoomForDelayAndPreRoll]).
Proof.
  intros Hroom.
  destruct (WriteOpusHeader_ok h rate size m t Hc Hcap) as (m0 & Hrun & Hw).
  pose proof (written_length_range h Hc) as Hlen.
  exists m0. eexists. split; [exact Hrun|].
  unfold WriteOpusHeaders. not_taken. rewrite Hrun. run. not_taken.
  consts. change (2 * (8 + 8 + 8)) with 48.
  rewrite !to_size_t_small by lia. taken. reflexivity.
Qed.

End UnifiedWriter.

(** ** The scan of GetOpusHeaderBuffers *)

Lemma compared_offsets_app a b :
  compared_offsets (a ++ b) = compared_offsets a ++ compared_offsets b.
Proof. unfold compared_offsets. apply flat_map_app. Qed.

Lemma view_from_weaken data marker i j data_size before after :
  j <= i -> view_from data marker i data_size before after ->
  view_from data marker j data_size before after.
Proof.
  intros Hji [E|(k & Hk & E & Hm)]; [left; exact E|].
  right. exists k. repeat split; try assumption; lia.
Qed.

Section Scan.

Variables (data : mem) (data_size : Z).
Hypothesis Hsize : 24 <= data_size < 2 ^ 64.

(** The loop returns, whatever the buffer holds, when the fuel covers the
    positions left; it compares only at positions in [i, data_size - 24),
    and the views it leaves come from markers found there. *)
Lemma scan_markers_spec : forall (fuel : nat) (i : Z) (v : views) (t : trace),
  0 <= i -> data_size - 24 - i <= Z.of_nat fuel ->
  exists v' t',
    scan_markers fuel data data_size i v t = Some (tt, v', t ++ t')
    /\ opusHeadBuf v' = opusHeadBuf v
    /\ (forall o, In o (compared_offsets t') -> i <= o < data_size - 24)
    /\ view_from data AOPUS_CSD_CODEC_DELAY_MARKER i data_size
         (codecDelayBuf v, codecDelaySize v) (codecDelayBuf v', codecDelaySize v')
    /\ view_from data AOPUS_CSD_SEEK_PREROLL_MARKER i data_size
         (seekPreRollBuf v, seekPreRollSize v) (seekPreRollBuf v', seekPreRollSize v')
    /\ (opusHeadSize v' = opusHeadSize v
        \/ (i <= opusHeadSize v' < data_size - 24 /\ opusHeadSize v' <= opusHeadSize v)).
Proof.
  induction fuel as [|fuel IH]; intros i v t Hi Hfuel.
  - (* no position is left *)
    unfold scan_markers. consts. change (8 + 8 + 8) with 24.
    rewrite to_size_t_small by lia. not_taken.
    exists v, []. rewrite app_nil_r. split; [reflexivity|].
    split; [reflexivity|]. split; [intros o []|].
    split; [left; reflexivity|]. split; [left; reflexivity|]. left; reflexivity.
  - cbn [scan_markers]. consts. change (8 + 8 + 8) with 24.
    rewrite to_size_t_small by lia.
    destruct (Z.ltb_spec i (data_size - 24)) as [Hlt|Hge].
    2:{ exists v, []. rewrite app_nil_r. split; [reflexivity|].
        split; [reflexivity|]. split; [intros o []|].
        split; [left; reflexivity|]. split; [left; reflexivity|]. left; reflexivity. }
    run. change (Z.to_nat 8) with 8%nat.
    rewrite !to_size_t_small by lia.
    destruct (bytes_match data i (firstn 8 AOPUS_CSD_CODEC_DELAY_MARKER)) eqn:Ed.
    + (* codec delay marker at [i] *)
      destruct (IH (i + 24)
                  (set_codecDelay (Some (i + 8 + 8)) 8
                     (set_opusHeadSize (Z.min (opusHeadSize v) i) v))
                  (t ++ [Compare i 8]) ltac:(lia) ltac:(lia))
        as (v' & t' & Hrun & Hbuf & Hcmp & Hd & Hp & Hh).
      exists v', ([Compare i 8] ++ t'). rewrite app_assoc.
      split; [exact Hrun|]. split; [exact Hbuf|]. split; [|split; [|split]].
      * intros o Ho. rewrite compared_offsets_app in Ho. simpl in Ho.
        destruct Ho as [<-|Ho]; [lia|]. apply Hcmp in Ho. lia.
      * destruct Hd as [E|Hd].
        -- right. exists i. split; [lia|]. split; [|exact Ed].
           rewrite E. cbn. replace (i + 8 + 8) with (i + 16) by lia. reflexivity.
        -- apply (view_from_weaken _ _ (i + 24)); [lia|]. right. exact Hd.
      * apply (view_from_weaken _ _ (i + 24)); [lia|]. exact Hp.
      * cbn [set_codecDelay set_opusHeadSize set_opusHead opusHeadSize] in Hh. lia.
    + destruct (bytes_match data i (firstn 8 AOPUS_CSD_SEEK_PREROLL_MARKER)) eqn:Ep.
      * (* seek pre-roll marker at [i] *)
        destruct (IH (i + 24)
                    (set_seekPreRoll (Some (i + 8 + 8)) 8
                       (set_opusHeadSize (Z.min (opusHeadSize v) i) v))
                    ((t ++ [Compare i 8]) ++ [Compare i 8]) ltac:(lia) ltac:(lia))
          as (v' & t' & Hrun & Hbuf & Hcmp & Hd & Hp & Hh).
        exists v', ([Compare i 8; Compare i 8] ++ t').
        replace (t ++ [Compare i 8; Compare i 8] ++ t')
          with (((t ++ [Compare i 8]) ++ [Compare i 8]) ++ t')
          by (rewrite <- !app_assoc; reflexivity).
        split; [exact Hrun|]. split; [exact Hbuf|]. split; [|split; [|split]].
        -- intros o Ho. rewrite compared_offsets_app in Ho. simpl in Ho.
           destruct Ho as [<-|[<-|Ho]]; try lia. apply Hcmp in Ho. lia.
        -- apply (view_from_weaken _ _ (i + 24)); [lia|]. exact Hd.
        -- destruct Hp as [E|Hp].
           ++ right. exists i. split; [lia|]. split; [|exact Ep].
              rewrite E. cbn. replace (i + 8 + 8) with (i + 16) by lia. reflexivity.
           ++ apply (view_from_weaken _ _ (i + 24)); [lia|]. right. exact Hp.
        -- cbn [set_seekPreRoll set_opusHeadSize set_opusHead opusHeadSize] in Hh. lia.
      * (* no marker at [i] *)
        destruct (IH (i + 1) v ((t ++ [Compare i 8]) ++ [Compare i 8])
                    ltac:(lia) ltac:(lia))
          as (v' & t' & Hrun & Hbuf & Hcmp & Hd & Hp & Hh).
        exists v', ([Compare i 8; Compare i 8] ++ t').
        replace (t ++ [Compare i 8; Compare i 8] ++ t')
          with (((t ++ [Compare i 8]) ++ [Compare i 8]) ++ t')
          by (rewrite <- !app_assoc; reflexivity).
        split; [exact Hrun|]. split; [exact Hbuf|]. split; [|split; [|split]].
        -- intros o Ho. rewrite compared_offsets_app in Ho. simpl in Ho.
           destruct Ho as [<-|[<-|Ho]]; try lia. apply Hcmp in Ho. lia.
        -- apply (view_from_weaken _ _ (i + 1)); [lia|]. exact Hd.
        -- apply (view_from_weaken _ _ (i + 1)); [lia|]. exact Hp.
        -- destruct Hh as [Hh|Hh]; [left; exact Hh | right; lia].
Qed.

End Scan.

Lemma GetOpusHeaderBuffers_spec MINSIZE data data_size v :
  0 <= data_size < 2 ^ 64 -> data_size < MINSIZE \/ 24 <= data_size ->
  exists v' tr,
    GetOpusHeaderBuffers MINSIZE data data_size v [] = Some (tt, v', tr)
    /\ opusHeadBuf v' = Some 0
    /\ (forall o, In o (compared_offsets tr) -> 0 <= o < data_size - 24)
    /\ view_from data AOPUS_CSD_CODEC_DELAY_MARKER 0 data_size
         (None, 0) (codecDelayBuf v', codecDelaySize v')
    /\ view_from data AOPUS_CSD_SEEK_PREROLL_MARKER 0 data_size
         (None, 0) (seekPreRollBuf v', seekPreRollSize v')
    /\ (opusHeadSize v' = data_size \/ 0 <= opusHeadSize v' < data_size - 24).
Proof.
  intros Hsz Hmin. unfold GetOpusHeaderBuffers. run.
  rewrite Z.geb_leb. destruct (Z.leb_spec MINSIZE data_size) as [Hscan|Hbare].
  - assert (H24 : 24 <= data_size < 2 ^ 64) by lia.
    consts. change (8 + 8 + 8) with 24. rewrite to_size_t_small by lia.
    destruct (scan_markers_spec data data_size H24
                (Z.to_nat (data_size - 24)) 0
                (set_opusHead (Some 0) data_size
                   (set_seekPreRoll None 0 (set_codecDelay None 0 v)))
                [] ltac:(lia) ltac:(lia))
      as (v' & t' & Hrun & Hbuf & Hcmp & Hd & Hp & Hh).
    exists v', t'. split; [exact Hrun|]. split; [exact Hbuf|].
    split; [exact Hcmp|]. split; [exact Hd|]. split; [exact Hp|].
    cbn [set_opusHead opusHeadSize] in Hh. lia.
  - do 2 eexists. split; [reflexivity|]. split; [reflexivity|].
    split; [intros o []|]. split; [left; reflexivity|].
    split; [left; reflexivity|]. left. reflexivity.
Qed.

(** ** Claims on the unified CSD *)

(** C6 (room for the trailer records): the code departs from the claim.
    When the header leaves exactly the 48 bytes the two records need, that
    is when the capacity is the returned header length plus 48,
    [WriteOpusHeaders] writes the header, logs that the buffer is not large
    enough to hold codec delay and seek pre-roll, and returns -1. *)
Theorem exact_fit_refused :
  forall (MINSIZE : Z) (h : OpusHeader) (rate delay preroll : Z) (m : mem),
    1 <= channels h <= 8 -> MINSIZE <= written_length h + 48 ->
    exists m0 tr0 tr,
      WriteOpusHeader h rate (written_length h + 48) m [] =
        Some (written_length h, m0, tr0)
      /\ WriteOpusHeaders MINSIZE h rate (written_length h + 48) delay preroll m [] =
        Some (-1, m0, tr)
      /\ messages tr = [NoRoomForDelayAndPreRoll].
Proof.
  intros MINSIZE h rate delay preroll m Hc Hmin.
  pose proof (written_length_range h Hc) as Hlen.
  assert (Hcap : 21 + channels h <= written_length h + 48).
  { unfold written_length. rewrite Z.gtb_ltb.
    destruct (Z.ltb_spec 2 (channels h)); lia. }
  destruct (WriteOpusHeaders_no_room MINSIZE h rate (written_length h + 48)
              delay preroll m [] Hc Hmin Hcap ltac:(lia) ltac:(lia))
    as (m0 & tr & Hrun & Hfail).
  exists m0, tr. eexists. split; [exact Hrun|]. split; [exact Hfail|].
  destruct (WriteOpusHeader_ok h rate (written_length h + 48) m [] Hc Hcap)
    as (m1 & Hrun1 & _).
  rewrite Hrun1 in Hrun. injection Hrun as _ <-.
  rewrite !messages_app, messages_map_Write. reflexivity.
Qed.

(** The failing input of C6: an eight-channel header takes 30 bytes, the two
    records 48, and a capacity of 78 is refused. *)
Lemma exact_fit_refused_witness :
  exists m0 tr0 tr,
    WriteOpusHeader eight_channels 48000 78 stale [] = Some (30, m0, tr0)
    /\ WriteOpusHeaders 67 eight_channels 48000 78 1000 2000 stale [] = Some (-1, m0, tr)
    /\ messages tr = [NoRoomForDelayAndPreRoll].
Proof.
  apply (exact_fit_refused 67 eight_channels 48000 1000 2000 stale); vm_compute;
    try split; discriminate.
Defined.

(** C3 (scan coverage): the code departs from the claim.  On a buffer of at
    least 24 bytes (so on every buffer that meets the unified minimum when
    that is at least 24), [GetOpusHeaderBuffers] returns, and every position
    it compares at is below [data_size - 24]: position [data_size - 24] is
    never examined, and no view ever points to the payload of a record that
    starts there. *)
Theorem trailing_record_not_scanned :
  forall (MINSIZE : Z) (data : mem) (data_size : Z) (v0 : views),
    24 <= data_size < 2 ^ 64 ->
    exists v tr,
      GetOpusHeaderBuffers MINSIZE data data_size v0 [] = Some (tt, v, tr)
      /\ (forall o, In o (compared_offsets tr) -> 0 <= o < data_size - 24)
      /\ ~ In (data_size - 24) (compared_offsets tr)
      /\ codecDelayBuf v <> Some (data_size - 24 + 16)
      /\ seekPreRollBuf v <> Some (data_size - 24 + 16).
Proof.
  intros MINSIZE data data_size v0 Hsz.
  destruct (GetOpusHeaderBuffers_spec MINSIZE data data_size v0
              ltac:(lia) ltac:(lia))
    as (v & tr & Hrun & _ & Hcmp & Hd & Hp & _).
  exists v, tr. split; [exact Hrun|]. split; [exact Hcmp|].
  split; [|split].
  - intros Hin. apply Hcmp in Hin. lia.
  - destruct Hd as [E|(k & Hk & E & _)]; injection E as E1 _; rewrite E1.
    + discriminate.
    + intros Habs. injection Habs as Habs. lia.
  - destruct Hp as [E|(k & Hk & E & _)]; injection E as E1 _; rewrite E1.
    + discriminate.
    + intros Habs. injection Habs as Habs. lia.
Qed.

(** The failing input of C3: the record that ends with the 100-byte buffer
    is not found. *)
Lemma trailing_record_not_scanned_witness :
  length trailing_delay_blob = 100%nat
  /\ bytes_at (mem_of_list 0 trailing_delay_blob) (100 - 24) 24
     = AOPUS_CSD_CODEC_DELAY_MARKER ++ le_bytes 8 AOPUS_LENGTH ++ le_bytes 8 1000
  /\ exists v tr,
       GetOpusHeaderBuffers 67 (mem_of_list 0 trailing_delay_blob) 100 views0 []
       = Some (tt, v, tr)
       /\ ~ In (100 - 24) (compared_offsets tr)
       /\ v = mkViews (Some 0) 100 None 0 None 0.
Proof.
  split; [reflexivity|]. split; [reflexivity|].
  destruct (trailing_record_not_scanned 67 (mem_of_list 0 trailing_delay_blob)
              100 views0 ltac:(lia))
    as (v & tr & Hrun & _ & Hnot & _).
  exists v, tr. split; [exact Hrun|]. split; [exact Hnot|].
  vm_compute in Hrun. injection Hrun as <- _. reflexivity.
Defined.

Lemma bytes_at_slice m off n bs a b :
  bytes_at m off n = bs -> (a + b <= n)%nat ->
  bytes_at m (off + Z.of_nat a) b = firstn b (skipn a bs).
Proof.
  intros Hb Hab.
  replace n with (a + (b + (n - a - b)))%nat in Hb by lia.
  rewrite !bytes_at_app in Hb. rewrite <- Hb.
  rewrite skipn_app, bytes_at_length, Nat.sub_diag.
  rewrite (skipn_all2 (bytes_at m off a)) by (rewrite bytes_at_length; lia).
  simpl skipn. simpl app.
  rewrite firstn_app, bytes_at_length, Nat.sub_diag. simpl firstn at 2.
  rewrite app_nil_r.
  rewrite firstn_all2 by (rewrite bytes_at_length; lia).
  reflexivity.
Qed.

(** C2 (unified CSD round trip): the code departs from the claim.  Whenever
    [WriteOpusHeaders] succeeds on a header of 1 to 8 channels, it returns the
    header length plus 48 and the seek pre-roll record occupies the last 24
    bytes of the returned length; [GetOpusHeaderBuffers] on the written
    memory with that length never compares at the position of that record,
    and its seek pre-roll view is not the payload written there. *)
Theorem unified_split_misses_preroll :
  forall (MINSIZE : Z) (h : OpusHeader) (rate size delay preroll : Z)
         (m : mem) (v0 : views),
    1 <= channels h <= 8 -> MINSIZE <= size -> 48 <= size < 2 ^ 64 ->
    written_length h + 48 < size ->
    exists n m' tr v tr',
      WriteOpusHeaders MINSIZE h rate size delay preroll m [] = Some (n, m', tr)
      /\ n = written_length h + 48
      /\ bytes_at m' (n - 24) 24 =
         AOPUS_CSD_SEEK_PREROLL_MARKER ++ le_bytes 8 AOPUS_LENGTH ++ le_bytes 8 preroll
      /\ GetOpusHeaderBuffers MINSIZE m' n v0 [] = Some (tt, v, tr')
      /\ ~ In (n - 24) (compared_offsets tr')
      /\ seekPreRollBuf v <> Some (n - 8).
Proof.
  intros MINSIZE h rate size delay preroll m v0 Hc Hmin Hsz Hroom.
  pose proof (written_length_range h Hc) as Hlen.
  assert (Hcap : 21 + channels h <= size).
  { revert Hroom. unfold written_length. rewrite Z.gtb_ltb.
    destruct (Z.ltb_spec 2 (channels h)); lia. }
  destruct (WriteOpusHeaders_ok MINSIZE h rate size delay preroll m []
              Hc Hmin Hcap Hsz Hroom)
    as (m0 & m' & tr & tr' & _ & Hrun & _ & Htrail & _).
  destruct (GetOpusHeaderBuffers_spec MINSIZE m' (written_length h + 48) v0
              ltac:(lia) ltac:(lia))
    as (v & trs & Hsplit & _ & Hcmp & _ & Hp & _).
  exists (written_length h + 48), m', (tr ++ tr'), v, trs.
  split; [exact Hrun|]. split; [reflexivity|]. split; [|split; [exact Hsplit|split]].
  - replace (written_length h + 48 - 24)
      with (written_length h + Z.of_nat 24) by lia.
    rewrite (bytes_at_slice _ _ _ _ 24 24 Htrail) by lia. reflexivity.
  - intros Hin. apply Hcmp in Hin. lia.
  - destruct Hp as [E|(k & Hk & E & _)]; injection E as E1 _; rewrite E1.
    + discriminate.
    + intros Habs. injection Habs as Habs. lia.
Qed.

(** The failing input of C2: the stereo header with codec delay 1000 and seek
    pre-roll 2000, written into 128 bytes.  The 67 bytes returned split into
    a 19-byte head and the codec-delay view at offset 35, which decodes to
    1000; the pre-roll value 2000 is in the buffer, at offset 59, and the
    seek pre-roll view is absent. *)
Lemma unified_split_misses_preroll_witness :
  exists m' tr v tr',
    WriteOpusHeaders 67 stereo 48000 128 1000 2000 stale [] = Some (67, m', tr)
    /\ GetOpusHeaderBuffers 67 m' 67 views0 [] = Some (tt, v, tr')
    /\ v = mkViews (Some 0) 19 (Some 35) 8 None 0
    /\ le_value (bytes_at m' 35 8) = 1000
    /\ le_value (bytes_at m' 59 8) = 2000.
Proof.
  destruct (unified_split_misses_preroll 67 stereo 48000 128 1000 2000 stale views0
              ltac:(simpl; lia) ltac:(lia) ltac:(lia) ltac:(vm_compute; reflexivity))
    as (n & m' & tr & v & tr' & Hrun & Hn & _ & Hsplit & _).
  vm_compute in Hn. subst n.
  exists m', tr, v, tr'. split; [exact Hrun|]. split; [exact Hsplit|].
  vm_compute in Hrun. injection Hrun as <- _.
  vm_compute in Hsplit. injection Hsplit as <- _.
  repeat split.
Defined.

(** ** Further properties *)

(** The unified writer, when the header leaves more than 48 bytes: the call
    returns the header length plus 48; the 48 bytes after the header are the
    codec-delay record then the seek pre-roll record, each the marker, the
    length 8 and the value, little-endian on 8 bytes; the header bytes are
    those [WriteOpusHeader] wrote, and every write of the trailer lies in
    those 48 bytes. *)
Theorem unified_writer_layout :
  forall (MINSIZE : Z) (h : OpusHeader) (rate size delay preroll : Z) (m : mem),
    1 <= channels h <= 8 -> MINSIZE <= size -> 48 <= size < 2 ^ 64 ->
    written_length h + 48 < size ->
    exists m0 m' tr tr',
      WriteOpusHeader h rate size m [] = Some (written_length h, m0, tr)
      /\ WriteOpusHeaders MINSIZE h rate size delay preroll m [] =
         Some (written_length h + 48, m', tr ++ tr')
      /\ write_offsets tr' = zseq (written_length h) 48
      /\ bytes_at m' (written_length h) 48 = trailer_bytes delay preroll
      /\ (forall j, j < written_length h \/ written_length h + 48 <= j ->
                    m' j = m0 j).
Proof.
  intros MINSIZE h rate size delay preroll m Hc Hmin Hsz Hroom.
  pose proof (written_length_range h Hc) as Hlen.
  assert (Hcap : 21 + channels h <= size).
  { revert Hroom. unfold written_length. rewrite Z.gtb_ltb.
    destruct (Z.ltb_spec 2 (channels h)); lia. }
  exact (WriteOpusHeaders_ok MINSIZE h rate size delay preroll m []
           Hc Hmin Hcap Hsz Hroom).
Qed.

(** The stereo record with a capacity of 68. *)
Lemma unified_writer_layout_witness :
  exists m0 m' tr tr',
    WriteOpusHeader stereo 48000 68 stale [] = Some (19, m0, tr)
    /\ WriteOpusHeaders 67 stereo 48000 68 1000 2000 stale [] = Some (67, m', tr ++ tr')
    /\ write_offsets tr' = zseq 19 48
    /\ bytes_at m' 19 48 = trailer_bytes 1000 2000
    /\ (forall j, j < 19 \/ 67 <= j -> m' j = m0 j).
Proof.
  apply (unified_writer_layout 67 stereo 48000 68 1000 2000 stale);
    vm_compute; try split; (reflexivity || discriminate).
Defined.

(** [ParseOpusHeader] returns on every input, and every byte it reads lies
    below [data_size]. *)
Theorem parse_reads_in_bounds :
  forall (data : mem) (data_size : Z) (h : OpusHeader),
    exists b h' tr,
      ParseOpusHeader data data_size h [] = Some (b, h', tr)
      /\ (forall o, In o (read_offsets tr) -> 0 <= o < data_size).
Proof.
  intros data data_size h.
  destruct (Z_lt_le_dec data_size 19) as [Hs|Hs].
  { rewrite parse_too_small by exact Hs. do 3 eexists.
    split; [reflexivity|]. simpl. intros o []. }
  destruct (Z_lt_le_dec (data 9) 1) as [Hc|Hc].
  { rewrite parse_bad_channels by lia. do 3 eexists.
    split; [reflexivity|]. simpl. intros o [<-|[]]. lia. }
  destruct (Z_lt_le_dec 8 (data 9)) as [Hc'|Hc'].
  { rewrite parse_bad_channels by lia. do 3 eexists.
    split; [reflexivity|]. simpl. intros o [<-|[]]. lia. }
  assert (Hfixed : forall o, In o (read_offsets fixed_reads) -> 0 <= o < data_size).
  { simpl. intros o Ho. repeat (destruct Ho as [<-|Ho]; [lia|]). destruct Ho. }
  destruct (Z.eq_dec (data 18) 0) as [Hm|Hm].
  { destruct (Z_lt_le_dec 2 (data 9)).
    - rewrite parse_missing_map by lia. do 3 eexists. split; [reflexivity|].
      intros o Ho. rewrite app_nil_l, read_offsets_app, in_app_iff in Ho.
      destruct Ho as [Ho|[]]. now apply Hfixed.
    - rewrite parse_default_layout by lia. do 3 eexists. split; [reflexivity|].
      exact Hfixed. }
  destruct (Z_lt_le_dec data_size (21 + data 9)).
  { rewrite parse_short_map by lia. do 3 eexists. split; [reflexivity|].
    intros o Ho. rewrite app_nil_l, read_offsets_app, in_app_iff in Ho.
    destruct Ho as [Ho|[]]. now apply Hfixed. }
  destruct (Z.eq_dec (data 19 + data 20) (data 9)).
  - rewrite parse_mapped by lia. do 3 eexists. split; [reflexivity|].
    intros o Ho.
    rewrite app_nil_l, !read_offsets_app, read_offsets_stream_map_reads in Ho.
    rewrite !in_app_iff, in_zseq in Ho.
    destruct Ho as [Ho|[Ho|Ho]]; [now apply Hfixed| |lia].
    simpl in Ho. destruct Ho as [<-|[<-|[]]]; lia.
  - rewrite parse_inconsistent by lia. do 3 eexists. split; [reflexivity|].
    intros o Ho. rewrite app_nil_l, read_offsets_app, in_app_iff in Ho.
    destruct Ho as [Ho|Ho]; [now apply Hfixed|].
    simpl in Ho. destruct Ho as [<-|[<-|[]]]; lia.
Qed.

(** [GetOpusHeaderBuffers] returns on every buffer of at least 24 bytes, and
    on every buffer below the unified minimum.  The head view starts at the
    buffer and is no longer than it; a payload view that is not absent has 8
    bytes that lie inside the buffer, 16 bytes after a position that holds
    the marker of its kind. *)
Theorem GetOpusHeaderBuffers_returns :
  forall (MINSIZE : Z) (data : mem) (data_size : Z) (v0 : views),
    0 <= data_size < 2 ^ 64 -> data_size < MINSIZE \/ 24 <= data_size ->
    exists v tr,
      GetOpusHeaderBuffers MINSIZE data data_size v0 [] = Some (tt, v, tr)
      /\ opusHeadBuf v = Some 0 /\ 0 <= opusHeadSize v <= data_size
      /\ (forall p, codecDelayBuf v = Some p ->
            codecDelaySize v = 8 /\ 16 <= p /\ p + 8 <= data_size
            /\ bytes_at data (p - 16) 8 = AOPUS_CSD_CODEC_DELAY_MARKER)
      /\ (forall p, seekPreRollBuf v = Some p ->
            seekPreRollSize v = 8 /\ 16 <= p /\ p + 8 <= data_size
            /\ bytes_at data (p - 16) 8 = AOPUS_CSD_SEEK_PREROLL_MARKER).
Proof.
  intros MINSIZE data data_size v0 Hsz Hmin.
  assert (Hmatch : forall k marker, length marker = 8%nat ->
                     bytes_match data k marker = true -> bytes_at data k 8 = marker).
  { intros k marker Hl.
    do 9 (destruct marker as [|? marker]; try discriminate Hl).
    cbn [bytes_match bytes_at]. rewrite !andb_true_iff, !Z.eqb_eq.
    intros (-> & -> & -> & -> & -> & -> & -> & -> & _). reflexivity. }
  destruct (GetOpusHeaderBuffers_spec MINSIZE data data_size v0 Hsz Hmin)
    as (v & tr & Hrun & Hbuf & _ & Hd & Hp & Hh).
  exists v, tr. split; [exact Hrun|]. split; [exact Hbuf|]. split; [lia|].
  split.
  - intros p Hv. destruct Hd as [E|(k & Hk & E & Hm)]; injection E as E1 E2.
    + congruence.
    + rewrite E1 in Hv. injection Hv as <-. split; [exact E2|].
      replace (k + 16 - 16) with k by lia.
      repeat split; try lia. apply Hmatch; [reflexivity | exact Hm].
  - intros p Hv. destruct Hp as [E|(k & Hk & E & Hm)]; injection E as E1 E2.
    + congruence.
    + rewrite E1 in Hv. injection Hv as <-. split; [exact E2|].
      replace (k + 16 - 16) with k by lia.
      repeat split; try lia. apply Hmatch; [reflexivity | exact Hm].
Qed.

(** The 100-byte buffer read with one byte more: the trailing record is
    then inside the scanned range. *)
Lemma GetOpusHeaderBuffers_returns_witness :
  exists v tr,
    GetOpusHeaderBuffers 67 (mem_of_list 0 trailing_delay_blob) 101 views0 []
    = Some (tt, v, tr)
    /\ opusHeadBuf v = Some 0 /\ 0 <= opusHeadSize v <= 101
    /\ (forall p, codecDelayBuf v = Some p ->
          codecDelaySize v = 8 /\ 16 <= p /\ p + 8 <= 101
          /\ bytes_at (mem_of_list 0 trailing_delay_blob) (p - 16) 8
             = AOPUS_CSD_CODEC_DELAY_MARKER)
    /\ (forall p, seekPreRollBuf v = Some p ->
          seekPreRollSize v = 8 /\ 16 <= p /\ p + 8 <= 101
          /\ bytes_at (mem_of_list 0 trailing_delay_blob) (p - 16) 8
             = AOPUS_CSD_SEEK_PREROLL_MARKER).
Proof.
  apply (GetOpusHeaderBuffers_returns 67 (mem_of_list 0 trailing_delay_blob) 101 views0);
    lia.
Defined.

Lemma split_below_minimum MINSIZE data data_size v0 :
  data_size < MINSIZE ->
  GetOpusHeaderBuffers MINSIZE data data_size v0 [] =
  Some (tt, mkViews (Some 0) data_size None 0 None 0, []).
Proof.
  intros Hs. unfold GetOpusHeaderBuffers. run. not_taken. reflexivity.
Qed.

(** ** Further properties of ParseOpusHeader *)

Lemma to_int16_range x : - 2 ^ 15 <= to_int16 x < 2 ^ 15.
Proof.
  unfold to_int16, to_signed. change (2 ^ (16 - 1)) with (2 ^ 15).
  pose proof (Z.mod_pos_bound x (2 ^ 16) ltac:(lia)).
  destruct (Z.ltb_spec (x mod 2 ^ 16) (2 ^ 15)); lia.
Qed.

Lemma le16_at_range data off : 0 <= le16_at data off < 2 ^ 16.
Proof. unfold le16_at, to_uint16. apply Z.mod_pos_bound. lia. Qed.

Lemma lor_add a b :
  0 <= a < 256 -> 0 <= b < 256 -> Z.lor a (Z.shiftl b 8) = a + 256 * b.
Proof.
  intros Ha Hb.
  rewrite <- (lor_le_bytes (a + 256 * b)) by lia.
  replace ((a + 256 * b) mod 256) with a
    by (Z.to_euclidean_division_equations; lia).
  replace ((a + 256 * b) / 256 mod 256) with b
    by (Z.to_euclidean_division_equations; lia).
  reflexivity.
Qed.

Lemma le16_at_value data off :
  0 <= off < 2 ^ 32 - 1 -> 0 <= data off < 256 -> 0 <= data (off + 1) < 256 ->
  le16_at data off = data off + 256 * data (off + 1).
Proof.
  intros Hoff H0 H1. unfold le16_at. rewrite to_uint32_small by lia.
  rewrite (to_uint16_small (data off)) by lia.
  rewrite lor_add by lia. apply to_uint16_small. lia.
Qed.

Lemma copy_stream_map_length data n : forall i h,
  length (stream_map (copy_stream_map data n i h)) = length (stream_map h).
Proof.
  induction n as [|n IH]; intros i h; simpl copy_stream_map; [reflexivity|].
  rewrite IH. unfold set_stream_map. simpl stream_map.
  destruct (i <? 0); [reflexivity | apply list_set_length].
Qed.

Lemma copy_stream_map_ext data data' n : forall i h,
  (forall k, i <= k < i + Z.of_nat n -> data' (21 + k) = data (21 + k)) ->
  copy_stream_map data' n i h = copy_stream_map data n i h.
Proof.
  induction n as [|n IH]; intros i h Hag; cbn [copy_stream_map]; [reflexivity|].
  rewrite (Hag i) by lia. apply IH. intros k Hk. apply Hag. lia.
Qed.

Lemma stream_map_reads_ext n : forall i,
  map (fun k => Read (21 + k)) (zseq i n) = map Read (zseq (21 + i) n).
Proof.
  induction n as [|n IH]; intros i; cbn [zseq map]; [reflexivity|].
  rewrite IH. replace (21 + (i + 1)) with (21 + i + 1) by lia. reflexivity.
Qed.

(** When [ParseOpusHeader] succeeds.  On every input the call returns; it
    returns true exactly when [data_size] is at least 19, the channel byte
    is in 1..8, a zero mapping byte comes with at most 2 channels, and a
    non-zero mapping byte comes with [data_size] at least 21 + channels and
    stream counts that add up to the channel count.  A success logs
    nothing; a failure logs one message. *)
Theorem parse_success_iff :
  forall (data : mem) (data_size : Z) (h : OpusHeader),
    exists b h' tr,
      ParseOpusHeader data data_size h [] = Some (b, h', tr)
      /\ (b = true <->
          19 <= data_size /\ 1 <= data 9 <= 8
          /\ (data 18 = 0 -> data 9 <= 2)
          /\ (data 18 <> 0 ->
              21 + data 9 <= data_size /\ data 19 + data 20 = data 9))
      /\ length (messages tr) = (if b then 0 else 1)%nat.
Proof.
  intros data data_size h.
  destruct (Z_lt_le_dec data_size 19) as [Hs|Hs].
  { rewrite parse_too_small by exact Hs. do 3 eexists.
    split; [reflexivity|]. split; [|reflexivity].
    split; [discriminate | intros (H & _); lia]. }
  destruct (Z_lt_le_dec (data 9) 1) as [Hc|Hc].
  { rewrite parse_bad_channels by lia. do 3 eexists.
    split; [reflexivity|]. split; [|reflexivity].
    split; [discriminate | intros (_ & H & _); lia]. }
  destruct (Z_lt_le_dec 8 (data 9)) as [Hc'|Hc'].
  { rewrite parse_bad_channels by lia. do 3 eexists.
    split; [reflexivity|]. split; [|reflexivity].
    split; [discriminate | intros (_ & H & _); lia]. }
  destruct (Z.eq_dec (data 18) 0) as [Hm|Hm].
  { destruct (Z_lt_le_dec 2 (data 9)).
    - rewrite parse_missing_map by lia. do 3 eexists.
      split; [reflexivity|]. split; [|reflexivity].
      split; [discriminate | intros (_ & _ & H & _); specialize (H Hm); lia].
    - rewrite parse_default_layout by lia. do 3 eexists.
      split; [reflexivity|]. split; [|reflexivity].
      split; [intros _ | reflexivity].
      split; [lia|]. split; [lia|].
      split; [intros; lia | intros H; contradiction]. }
  destruct (Z_lt_le_dec data_size (21 + data 9)).
  { rewrite parse_short_map by lia. do 3 eexists.
    split; [reflexivity|]. split; [|reflexivity].
    split; [discriminate | intros (_ & _ & _ & H); specialize (H Hm); lia]. }
  destruct (Z.eq_dec (data 19 + data 20) (data 9)).
  - rewrite parse_mapped by lia. do 3 eexists.
    split; [reflexivity|]. split.
    + split; [intros _ | reflexivity].
      split; [lia|]. split; [lia|].
      split; [intros H; contradiction | intros; lia].
    + rewrite app_nil_l, !messages_app, messages_stream_map_reads. reflexivity.
  - rewrite parse_inconsistent by lia. do 3 eexists.
    split; [reflexivity|]. split; [|reflexivity].
    split; [discriminate | intros (_ & _ & _ & H); specialize (H Hm); lia].
Qed.

(** The default layout.  With a zero mapping byte, a header of 1 or 2
    channels is accepted after reading offsets 9, 10, 11, 16, 17 and 18 only:
    one stream, coupled exactly when there are 2 channels, and 0 and 1 stored
    in the first two entries of [stream_map], for mono too, the other entries
    left as they were.  A header of 3 to 8 channels is refused for its
    missing stream map. *)
Theorem default_layout :
  forall (data : mem) (data_size : Z) (h : OpusHeader),
    19 <= data_size -> data 18 = 0 -> length (stream_map h) = 8%nat ->
    (1 <= data 9 <= 2 ->
       exists h' tr,
         ParseOpusHeader data data_size h [] = Some (true, h', tr)
         /\ channel_mapping h' = 0 /\ num_streams h' = 1
         /\ num_coupled h' = (if data 9 =? 2 then 1 else 0)
         /\ stream_map h' = 0 :: 1 :: skipn 2 (stream_map h)
         /\ read_offsets tr = [9; 10; 11; 16; 17; 18])
    /\ (2 < data 9 <= 8 ->
       exists h' tr,
         ParseOpusHeader data data_size h [] = Some (false, h', tr)
         /\ messages tr = [MissingStreamMap]
         /\ stream_map h' = stream_map h).
Proof.
  intros data data_size h Hs Hm Hlen. split; intros Hc.
  - rewrite parse_default_layout by lia. do 2 eexists.
    split; [reflexivity|]. fields.
    split; [exact Hm|]. split; [reflexivity|]. split; [|split; [|reflexivity]].
    + rewrite Z.gtb_ltb. destruct (Z.ltb_spec 1 (data 9)); destruct (Z.eqb_spec (data 9) 2);
        try reflexivity; lia.
    + destruct (stream_map h) as [|a [|b l]]; try discriminate Hlen. reflexivity.
  - rewrite parse_missing_map by lia. do 2 eexists.
    split; [reflexivity|]. split; reflexivity.
Qed.

(** The stereo header, and the same bytes announcing 6 channels. *)
Lemma default_layout_witness :
  (exists h' tr,
     ParseOpusHeader (mem_of_list 0 stereo_head) 19 header0 [] = Some (true, h', tr)
     /\ channel_mapping h' = 0 /\ num_streams h' = 1 /\ num_coupled h' = 1
     /\ stream_map h' = [0; 1; 0; 0; 0; 0; 0; 0]
     /\ read_offsets tr = [9; 10; 11; 16; 17; 18])
  /\ (exists h' tr,
     ParseOpusHeader (mem_of_list 0 six_without_map) 19 header0 [] = Some (false, h', tr)
     /\ messages tr = [MissingStreamMap]
     /\ stream_map h' = [0; 0; 0; 0; 0; 0; 0; 0]).
Proof.
  split.
  - apply (proj1 (default_layout (mem_of_list 0 stereo_head) 19 header0
                    ltac:(lia) eq_refl eq_refl)).
    vm_compute. split; discriminate.
  - apply (proj2 (default_layout (mem_of_list 0 six_without_map) 19 header0
                    ltac:(lia) eq_refl eq_refl)).
    vm_compute. split; [reflexivity | discriminate].
Defined.

(** A record that [ParseOpusHeader] accepts satisfies the invariants of the
    data model, whatever bytes the buffer holds: 1 to 8 channels, stream
    counts that add up to the channel count under a non-zero mapping family,
    at most 2 channels under mapping family 0, and fields in their ranges. *)
Theorem parsed_header_valid :
  forall (data : mem) (data_size : Z) (h h' : OpusHeader) (tr : trace),
    (forall j, 0 <= data j < 256) -> length (stream_map h) = 8%nat ->
    ParseOpusHeader data data_size h [] = Some (true, h', tr) ->
    valid_header h'.
Proof.
  intros data data_size h h' tr Hbytes Hlen Hrun.
  pose proof (to_int16_range (le16_at data 16)) as Hg.
  pose proof (le16_at_range data 10) as Hk.
  pose proof (Hbytes 18) as H18. pose proof (Hbytes 19) as H19.
  pose proof (Hbytes 20) as H20.
  destruct (Z_lt_le_dec data_size 19) as [Hs|Hs].
  { rewrite parse_too_small in Hrun by exact Hs. discriminate. }
  destruct (Z_lt_le_dec (data 9) 1) as [Hc|Hc].
  { rewrite parse_bad_channels in Hrun by lia. discriminate. }
  destruct (Z_lt_le_dec 8 (data 9)) as [Hc'|Hc'].
  { rewrite parse_bad_channels in Hrun by lia. discriminate. }
  destruct (Z.eq_dec (data 18) 0) as [Hm|Hm].
  { destruct (Z_lt_le_dec 2 (data 9)).
    - rewrite parse_missing_map in Hrun by lia. discriminate.
    - rewrite parse_default_layout in Hrun by lia. injection Hrun as <- _.
      unfold valid_header. fields.
      change (1 <? 0) with false. change (0 <? 0) with false. cbv iota.
      rewrite !list_set_length, Hlen. rewrite Z.gtb_ltb.
      destruct (Z.ltb_spec 1 (data 9)); simpl of_bool;
        repeat split; try lia; intros; try lia; contradiction. }
  destruct (Z_lt_le_dec data_size (21 + data 9)).
  { rewrite parse_short_map in Hrun by lia. discriminate. }
  destruct (Z.eq_dec (data 19 + data 20) (data 9)).
  - rewrite parse_mapped in Hrun by lia. injection Hrun as <- _.
    pose proof (copy_stream_map_fields data (Z.to_nat (data 9)) 0
                  (set_num_coupled (data 20)
                     (set_num_streams (data 19) (fixed_fields data h)))) as F.
    cbv zeta in F. destruct F as (F1 & F2 & F3 & F4 & F5 & F6).
    unfold valid_header.
    rewrite F1, F2, F3, F4, F5, F6, copy_stream_map_length. fields.
    repeat split; try lia; intros; try lia; contradiction.
  - rewrite parse_inconsistent in Hrun by lia. discriminate.
Qed.

(** The six-channel header with four streams and two coupled. *)
Lemma parsed_header_valid_witness :
  exists h' tr,
    ParseOpusHeader (mem_of_list 0 six_channel_head) 27 header0 [] = Some (true, h', tr)
    /\ valid_header h'.
Proof.
  do 2 eexists. split; [vm_compute; reflexivity|].
  eapply (parsed_header_valid (mem_of_list 0 six_channel_head) 27 header0).
  - intros j. unfold mem_of_list. destruct (Z.ltb_spec j 0); [lia|].
    assert (Hin : forall k, 0 <= nth k six_channel_head 0 < 256).
    { intros k. unfold six_channel_head.
      do 27 (destruct k as [|k]; [cbn [nth]; lia|]).
      destruct k; cbn [nth]; lia. }
    apply Hin.
  - reflexivity.
  - vm_compute. reflexivity.
Defined.

Lemma fixed_fields_ext data data' h :
  data' 9 = data 9 -> data' 10 = data 10 -> data' 11 = data 11 ->
  data' 16 = data 16 -> data' 17 = data 17 -> data' 18 = data 18 ->
  fixed_fields data' h = fixed_fields data h.
Proof.
  intros E9 E10 E11 E16 E17 E18. unfold fixed_fields, le16_at.
  change (to_uint32 (10 + 1)) with 11. change (to_uint32 (16 + 1)) with 17.
  now rewrite E9, E10, E11, E16, E17, E18.
Qed.

(** The fields stored before the mapping stage.  Once the size and the
    channel count are accepted, the record holds the channel count, the
    pre-skip [data[10] + 256 * data[11]], the gain (bytes 16 and 17 as a
    signed 16-bit value) and the mapping byte, whether the call then
    succeeds or fails at the mapping stage: a failure there leaves these
    fields overwritten. *)
Theorem fields_before_mapping :
  forall (data : mem) (data_size : Z) (h : OpusHeader)
         (b : bool) (h' : OpusHeader) (tr : trace),
    19 <= data_size -> 1 <= data 9 <= 8 ->
    0 <= data 10 < 256 -> 0 <= data 11 < 256 ->
    0 <= data 16 < 256 -> 0 <= data 17 < 256 ->
    ParseOpusHeader data data_size h [] = Some (b, h', tr) ->
    channels h' = data 9
    /\ skip_samples h' = data 10 + 256 * data 11
    /\ gain_db h' = to_int16 (data 16 + 256 * data 17)
    /\ channel_mapping h' = data 18.
Proof.
  intros data data_size h b h' tr Hs Hc H10 H11 H16 H17 Hrun.
  assert (Hfix : channels (fixed_fields data h) = data 9
                 /\ skip_samples (fixed_fields data h) = data 10 + 256 * data 11
                 /\ gain_db (fixed_fields data h) = to_int16 (data 16 + 256 * data 17)
                 /\ channel_mapping (fixed_fields data h) = data 18).
  { fields. rewrite !le16_at_value by (assumption || lia). repeat split. }
  destruct (Z.eq_dec (data 18) 0) as [Hm|Hm].
  { destruct (Z_lt_le_dec 2 (data 9)).
    - rewrite parse_missing_map in Hrun by lia. injection Hrun as _ <- _.
      exact Hfix.
    - rewrite parse_default_layout in Hrun by lia. injection Hrun as _ <- _.
      exact Hfix. }
  destruct (Z_lt_le_dec data_size (21 + data 9)).
  { rewrite parse_short_map in Hrun by lia. injection Hrun as _ <- _. exact Hfix. }
  destruct (Z.eq_dec (data 19 + data 20) (data 9)).
  - rewrite parse_mapped in Hrun by lia. injection Hrun as _ <- _.
    pose proof (copy_stream_map_fields data (Z.to_nat (data 9)) 0
                  (set_num_coupled (data 20)
                     (set_num_streams (data 19) (fixed_fields data h)))) as F.
    cbv zeta in F. destruct F as (F1 & F2 & _ & _ & F5 & F6).
    rewrite F1, F2, F5, F6. exact Hfix.
  - rewrite parse_inconsistent in Hrun by lia. injection Hrun as _ <- _.
    exact Hfix.
Qed.

(** The header that announces 6 channels without a stream map is refused,
    and the record holds its channel count, pre-skip 312 and gain -3. *)
Lemma fields_before_mapping_witness :
  exists h' tr,
    ParseOpusHeader (mem_of_list 0 six_without_map) 19 header0 [] = Some (false, h', tr)
    /\ channels h' = 6 /\ skip_samples h' = 312 /\ gain_db h' = -3
    /\ channel_mapping h' = 0.
Proof.
  do 2 eexists. split; [vm_compute; reflexivity|].
  eapply (fields_before_mapping (mem_of_list 0 six_without_map) 19 header0);
    vm_compute; try split; first [reflexivity | discriminate].
Defined.

Lemma parse_ext data data' data_size h t :
  (forall j, 9 <= j < data_size -> j < 12 \/ 16 <= j -> data' j = data j) ->
  ParseOpusHeader data' data_size h t = ParseOpusHeader data data_size h t.
Proof.
  intros Hag.
  destruct (Z_lt_le_dec data_size 19) as [Hs|Hs].
  { now rewrite !parse_too_small by exact Hs. }
  assert (E9 : data' 9 = data 9) by (apply Hag; lia).
  assert (E18 : data' 18 = data 18) by (apply Hag; lia).
  assert (Ef : fixed_fields data' h = fixed_fields data h)
    by (apply fixed_fields_ext; apply Hag; lia).
  destruct (Z_lt_le_dec (data 9) 1) as [Hc|Hc].
  { rewrite !parse_bad_channels by lia. now rewrite E9. }
  destruct (Z_lt_le_dec 8 (data 9)) as [Hc'|Hc'].
  { rewrite !parse_bad_channels by lia. now rewrite E9. }
  destruct (Z.eq_dec (data 18) 0) as [Hm|Hm].
  { destruct (Z_lt_le_dec 2 (data 9)).
    - rewrite !parse_missing_map by lia. now rewrite Ef.
    - rewrite !parse_default_layout by lia. now rewrite Ef, E9. }
  destruct (Z_lt_le_dec data_size (21 + data 9)).
  { rewrite !parse_short_map by lia. now rewrite Ef, E9. }
  assert (E19 : data' 19 = data 19) by (apply Hag; lia).
  assert (E20 : data' 20 = data 20) by (apply Hag; lia).
  destruct (Z.eq_dec (data 19 + data 20) (data 9)).
  - rewrite !parse_mapped by lia. rewrite Ef, E9, E19, E20.
    rewrite (copy_stream_map_ext data data'); [reflexivity|].
    intros k Hk. apply Hag; lia.
  - rewrite !parse_inconsistent by lia. now rewrite Ef, E19, E20.
Qed.

(** What the parser does not look at.  The whole outcome of
    [ParseOpusHeader], result, record and trace, is the same on two buffers
    that agree at offsets 9 to 11 and from offset 16 up to [data_size]: the
    magic label (offsets 0 to 7), the version (offset 8), the sample rate
    (offsets 12 to 15) and whatever lies at or beyond [data_size] are neither
    checked nor read. *)
Theorem parse_ignores_label_version_rate :
  forall (data data' : mem) (data_size : Z) (h : OpusHeader),
    (forall j, 9 <= j < data_size -> j < 12 \/ 16 <= j -> data' j = data j) ->
    ParseOpusHeader data' data_size h [] = ParseOpusHeader data data_size h [].
Proof. intros data data' data_size h Hag. now apply parse_ext. Qed.

(** The stereo header with the label zeroed, version 7 and another rate. *)
Lemma parse_ignores_label_version_rate_witness :
  ParseOpusHeader (mem_of_list 0 stereo_head_no_magic) 19 header0 [] =
  ParseOpusHeader (mem_of_list 0 stereo_head) 19 header0 [].
Proof.
  apply (parse_ignores_label_version_rate (mem_of_list 0 stereo_head)
           (mem_of_list 0 stereo_head_no_magic) 19 header0).
  intros j H9 Hj. unfold mem_of_list.
  destruct (Z.ltb_spec j 0); [lia|].
  destruct (Z.to_nat j) as [|[|[|[|[|[|[|[|[|[|[|[|[|[|[|[|[|[|[|k]]]]]]]]]]]]]]]]]]] eqn:E;
    try reflexivity; lia.
Defined.

(** ** Further properties of WriteOpusHeader and WriteOpusHeaders *)

Lemma le_value_le_bytes n : forall v, le_value (le_bytes n v) = v mod 256 ^ Z.of_nat n.
Proof.
  induction n as [|n IH]; intros v.
  - simpl. now rewrite Z.mod_1_r.
  - cbn [le_bytes le_value]. rewrite IH.
    replace (256 ^ Z.of_nat (S n)) with (256 * 256 ^ Z.of_nat n)
      by (rewrite Nat2Z.inj_succ, Z.pow_succ_r by lia; reflexivity).
    rewrite Z.rem_mul_r by lia. reflexivity.
Qed.

Lemma wire_bytes_length h rate :
  1 <= channels h <= 8 ->
  Z.of_nat (length (wire_bytes h rate)) = if channels h >? 2 then 21 + channels h else 19.
Proof.
  intros Hc. unfold wire_bytes. rewrite Z.gtb_ltb.
  destruct (Z.ltb_spec 2 (channels h)).
  - rewrite mapped_header_length by lia. lia.
  - reflexivity.
Qed.

(** The fixed part of a written header.  For a header of 1 to 8 channels and
    a capacity of at least 21 + channels, [WriteOpusHeader] succeeds without
    reading or logging.  It leaves the label "OpusHead" at offsets 0 to 7,
    version 1, the channel count, and pre-skip, sample rate and gain in
    little-endian order (the low 16, 32 and 16 bits of the values given);
    every byte from the end of the header up to the capacity is zero, memory
    outside the capacity is untouched, and every write is inside it. *)
Theorem written_header_layout :
  forall (h : OpusHeader) (rate size : Z) (m : mem),
    1 <= channels h <= 8 -> 21 + channels h <= size ->
    exists m' tr,
      WriteOpusHeader h rate size m [] = Some (written_length h, m', tr)
      /\ bytes_at m' 0 8 = bytes_of_string "OpusHead"
      /\ m' 8 = 1 /\ m' 9 = channels h
      /\ le_value (bytes_at m' 10 2) = skip_samples h mod 2 ^ 16
      /\ le_value (bytes_at m' 12 4) = rate mod 2 ^ 32
      /\ le_value (bytes_at m' 16 2) = gain_db h mod 2 ^ 16
      /\ (forall j, (if channels h >? 2 then 21 + channels h else 19) <= j < size ->
                    m' j = 0)
      /\ (forall j, j < 0 \/ size <= j -> m' j = m j)
      /\ (forall o, In o (write_offsets tr) -> 0 <= o < size)
      /\ read_offsets tr = [] /\ messages tr = [].
Proof.
  intros h rate size m Hc Hs.
  destruct (WriteOpusHeader_ok h rate size m [] Hc Hs) as (m' & Hrun & Hw).
  pose proof (wire_bytes_length h rate Hc) as Hlen.
  exists m'. eexists. split; [exact Hrun|].
  assert (Hn : (19 <= length (wire_bytes h rate))%nat).
  { destruct (channels h >? 2); lia. }
  assert (Hhead : firstn 18 (wire_bytes h rate) = head_bytes h rate).
  { unfold wire_bytes. destruct (channels h >? 2); reflexivity. }
  assert (S1 : forall a b, (a + b <= 18)%nat ->
                 bytes_at m' (Z.of_nat a) b = firstn b (skipn a (head_bytes h rate))).
  { intros a b Hab. rewrite (written_slice _ _ _ _ a b Hw) by lia.
    rewrite <- Hhead. rewrite skipn_firstn_comm, firstn_firstn.
    f_equal. lia. }
  split; [exact (S1 0%nat 8%nat ltac:(lia))|].
  split; [|split; [|split; [|split; [|split]]]].
  - pose proof (S1 8%nat 1%nat ltac:(lia)) as E. now injection E.
  - pose proof (S1 9%nat 1%nat ltac:(lia)) as E. injection E as E.
    rewrite E. apply to_uint8_small. lia.
  - change 10 with (Z.of_nat 10). rewrite (S1 10%nat 2%nat) by lia.
    exact (le_value_le_bytes 2 (skip_samples h)).
  - change 12 with (Z.of_nat 12). rewrite (S1 12%nat 4%nat) by lia.
    exact (le_value_le_bytes 4 rate).
  - change 16 with (Z.of_nat 16). rewrite (S1 16%nat 2%nat) by lia.
    exact (le_value_le_bytes 2 (gain_db h)).
  - destruct Hw as (_ & Hzero & Hframe).
    split; [|split; [exact Hframe|split; [|split]]].
    + intros j Hj. apply Hzero. rewrite Hlen. exact Hj.
    + intros o. rewrite app_nil_l, write_offsets_map_Write, in_app_iff, !in_zseq.
      destruct (channels h >? 2); lia.
    + rewrite app_nil_l. 
      generalize (zseq 0 (Z.to_nat size) ++ zseq 0 (length (wire_bytes h rate))).
      induction l as [|x l IH]; [reflexivity | exact IH].
    + rewrite app_nil_l. apply messages_map_Write.
Qed.

(** The stereo record at 48000 Hz into 64 bytes. *)
Lemma written_header_layout_witness :
  exists m' tr,
    WriteOpusHeader stereo 48000 64 stale [] = Some (19, m', tr)
    /\ bytes_at m' 0 8 = [79; 112; 117; 115; 72; 101; 97; 100]
    /\ m' 8 = 1 /\ m' 9 = 2
    /\ le_value (bytes_at m' 10 2) = 312
    /\ le_value (bytes_at m' 12 4) = 48000
    /\ le_value (bytes_at m' 16 2) = 65533
    /\ (forall j, 19 <= j < 64 -> m' j = 0)
    /\ (forall j, j < 0 \/ 64 <= j -> m' j = 170)
    /\ (forall o, In o (write_offsets tr) -> 0 <= o < 64)
    /\ read_offsets tr = [] /\ messages tr = [].
Proof.
  apply (written_header_layout stereo 48000 64 stale); vm_compute;
    try split; discriminate.
Defined.

Lemma write_offsets_app a b : write_offsets (a ++ b) = write_offsets a ++ write_offsets b.
Proof. unfold write_offsets. apply flat_map_app. Qed.

Lemma WriteOpusHeaders_below_minimum MINSIZE h rate size delay preroll m t :
  size < MINSIZE ->
  WriteOpusHeaders MINSIZE h rate size delay preroll m t =
  Some (-1, m, t ++ [Log UnifiedBufferTooSmall]).
Proof. intros Hs. unfold WriteOpusHeaders. taken. reflexivity. Qed.

(** The outcomes of [WriteOpusHeaders].  For a header of 1 to 8 channels and
    a unified minimum of at least 48, the call returns on every capacity: the
    header length plus 48 when the capacity reaches the minimum and exceeds
    that sum, and -1 otherwise.  Below the minimum nothing is written; on
    every path each write lies inside the capacity; and the failure of the
    inner [WriteOpusHeader] call is never the reason for -1. *)
Theorem unified_writer_outcome :
  forall (MINSIZE : Z) (h : OpusHeader) (rate size delay preroll : Z) (m : mem),
    1 <= channels h <= 8 -> 48 <= MINSIZE -> 0 <= size < 2 ^ 64 ->
    exists n m' tr,
      WriteOpusHeaders MINSIZE h rate size delay preroll m [] = Some (n, m', tr)
      /\ (MINSIZE <= size /\ written_length h + 48 < size ->
          n = written_length h + 48)
      /\ (size < MINSIZE \/ size <= written_length h + 48 -> n = -1)
      /\ (size < MINSIZE -> write_offsets tr = [] /\ m' = m)
      /\ (forall o, In o (write_offsets tr) -> 0 <= o < size)
      /\ (n = -1 -> messages tr = [UnifiedBufferTooSmall]
                    \/ messages tr = [NoRoomForDelayAndPreRoll]).
Proof.
  intros MINSIZE h rate size delay preroll m Hc Hmin Hsz.
  pose proof (written_length_range h Hc) as Hlen.
  destruct (Z_lt_le_dec size MINSIZE) as [Hlow|Hhigh].
  { rewrite WriteOpusHeaders_below_minimum by exact Hlow.
    do 3 eexists. split; [reflexivity|].
    split; [intros (H & _); lia|]. split; [reflexivity|].
    split; [intros _; split; reflexivity|].
    split; [intros o []|]. intros _. left. reflexivity. }
  assert (Hcap : 21 + channels h <= size) by lia.
  destruct (WriteOpusHeader_ok h rate size m [] Hc Hcap) as (m0 & Hrun0 & Hw).
  rewrite app_nil_l in Hrun0.
  assert (Hhdr : forall o,
             In o (write_offsets
                     (map Write (zseq 0 (Z.to_nat size)
                                   ++ zseq 0 (length (wire_bytes h rate)))))
             -> 0 <= o < size).
  { intros o. rewrite write_offsets_map_Write, in_app_iff, !in_zseq.
    pose proof (wire_bytes_length h rate Hc) as Hl.
    destruct (channels h >? 2); lia. }
  assert (Hmsg : messages (map Write (zseq 0 (Z.to_nat size)
                                ++ zseq 0 (length (wire_bytes h rate)))) = [])
    by apply messages_map_Write.
  destruct (Z_le_gt_dec size (written_length h + 48)) as [Hfit|Hroom].
  - destruct (WriteOpusHeaders_no_room MINSIZE h rate size delay preroll m []
                Hc Hhigh Hcap ltac:(lia) Hfit) as (m1 & tr1 & Hrun1 & Hfail).
    rewrite Hrun0 in Hrun1. injection Hrun1 as <- <-.
    do 3 eexists. split; [exact Hfail|].
    split; [intros (_ & H); lia|]. split; [reflexivity|].
    split; [intros H; lia|]. split.
    + intros o Ho. rewrite write_offsets_app, in_app_iff in Ho.
      destruct Ho as [Ho|[]]. now apply Hhdr.
    + intros _. right. rewrite messages_app, Hmsg. reflexivity.
  - destruct (WriteOpusHeaders_ok MINSIZE h rate size delay preroll m []
                Hc Hhigh Hcap ltac:(lia) ltac:(lia))
      as (m1 & m' & tr1 & tr' & Hrun1 & Hrun & Hoff & Htrail & Hframe).
    rewrite Hrun0 in Hrun1. injection Hrun1 as <- <-.
    do 3 eexists. split; [exact Hrun|].
    split; [reflexivity|]. split; [intros H; lia|].
    split; [intros H; lia|]. split.
    + intros o Ho. rewrite write_offsets_app, in_app_iff in Ho.
      destruct Ho as [Ho|Ho]; [now apply Hhdr|].
      rewrite Hoff in Ho. apply in_zseq in Ho. lia.
    + intros H. lia.
Qed.

(** The stereo record with capacities 66, 67 and 68 and a minimum of 67. *)
Lemma unified_writer_outcome_witness :
  (exists m' tr, WriteOpusHeaders 67 stereo 48000 66 1000 2000 stale [] = Some (-1, m', tr)
                 /\ write_offsets tr = [] /\ m' = stale)
  /\ (exists m' tr, WriteOpusHeaders 67 stereo 48000 67 1000 2000 stale [] = Some (-1, m', tr)
                    /\ forall o, In o (write_offsets tr) -> 0 <= o < 67)
  /\ (exists m' tr, WriteOpusHeaders 67 stereo 48000 68 1000 2000 stale [] = Some (67, m', tr)
                    /\ forall o, In o (write_offsets tr) -> 0 <= o < 68).
Proof.
  split; [|split].
  - destruct (unified_writer_outcome 67 stereo 48000 66 1000 2000 stale
                ltac:(simpl; lia) ltac:(lia) ltac:(lia))
      as (n & m' & tr & Hrun & _ & Hfail & Hlow & _).
    rewrite (Hfail ltac:(lia)) in Hrun. destruct (Hlow ltac:(lia)) as (H1 & H2).
    exists m', tr. auto.
  - destruct (unified_writer_outcome 67 stereo 48000 67 1000 2000 stale
                ltac:(simpl; lia) ltac:(lia) ltac:(lia))
      as (n & m' & tr & Hrun & _ & Hfail & _ & Hin & _).
    rewrite (Hfail ltac:(right; vm_compute; discriminate)) in Hrun.
    exists m', tr. auto.
  - destruct (unified_writer_outcome 67 stereo 48000 68 1000 2000 stale
                ltac:(simpl; lia) ltac:(lia) ltac:(lia))
      as (n & m' & tr & Hrun & Hok & _ & _ & Hin & _).
    rewrite (Hok ltac:(split; [lia | vm_compute; reflexivity])) in Hrun.
    exists m', tr. auto.
Defined.

(** ** Further properties of GetOpusHeaderBuffers *)

Lemma bytes_match_iff data k marker :
  length marker = 8%nat ->
  bytes_match data k marker = true <-> bytes_at data k 8 = marker.
Proof.
  intros Hl.
  do 9 (destruct marker as [|? marker]; try discriminate Hl).
  cbn [bytes_match bytes_at]. rewrite !andb_true_iff, !Z.eqb_eq. split.
  - intros (-> & -> & -> & -> & -> & -> & -> & -> & _). reflexivity.
  - intros E. injection E as -> -> -> -> -> -> -> ->. repeat split.
Qed.

Lemma no_marker_no_match data k :
  ~ marker_at data k ->
  bytes_match data k (firstn 8 AOPUS_CSD_CODEC_DELAY_MARKER) = false
  /\ bytes_match data k (firstn 8 AOPUS_CSD_SEEK_PREROLL_MARKER) = false.
Proof.
  intros Hno. split.
  - destruct (bytes_match data k (firstn 8 AOPUS_CSD_CODEC_DELAY_MARKER)) eqn:E;
      [|reflexivity].
    exfalso. apply Hno. left. now apply bytes_match_iff in E.
  - destruct (bytes_match data k (firstn 8 AOPUS_CSD_SEEK_PREROLL_MARKER)) eqn:E;
      [|reflexivity].
    exfalso. apply Hno. right. now apply bytes_match_iff in E.
Qed.

(** Both markers start with the letter A. *)
Lemma no_marker_without_A data k : data k <> 65 -> ~ marker_at data k.
Proof.
  intros Hne [E|E]; cbn [bytes_at] in E; injection E as E _; contradiction.
Qed.

Section ScanSteps.

Variables (data : mem) (data_size : Z).
Hypothesis Hsize : 24 <= data_size < 2 ^ 64.

Ltac scan_head :=
  cbn [scan_markers]; consts; change (8 + 8 + 8) with 24;
  rewrite ?to_size_t_small by lia.

Lemma scan_exit fuel i v t :
  data_size - 24 <= i ->
  scan_markers fuel data data_size i v t = Some (tt, v, t).
Proof.
  intros Hi. destruct fuel; scan_head; not_taken; reflexivity.
Qed.

Lemma scan_step_none fuel i v t :
  0 <= i < data_size - 24 -> ~ marker_at data i ->
  scan_markers (S fuel) data data_size i v t =
  scan_markers fuel data data_size (i + 1) v (t ++ [Compare i 8; Compare i 8]).
Proof.
  intros Hi Hno. destruct (no_marker_no_match data i Hno) as (Ed & Ep).
  scan_head. taken. change (Z.to_nat 8) with 8%nat.
  rewrite Ed, Ep. rewrite ?to_size_t_small by lia. rewrite <- app_assoc. reflexivity.
Qed.

Lemma scan_step_delay fuel i v t :
  0 <= i < data_size - 24 ->
  bytes_at data i 8 = AOPUS_CSD_CODEC_DELAY_MARKER ->
  scan_markers (S fuel) data data_size i v t =
  scan_markers fuel data data_size (i + 24)
    (set_codecDelay (Some (i + 16)) 8
       (set_opusHeadSize (Z.min (opusHeadSize v) i) v))
    (t ++ [Compare i 8]).
Proof.
  intros Hi Hd.
  assert (Ed : bytes_match data i (firstn 8 AOPUS_CSD_CODEC_DELAY_MARKER) = true)
    by (apply bytes_match_iff; [reflexivity | exact Hd]).
  scan_head. taken. change (Z.to_nat 8) with 8%nat.
  rewrite Ed. rewrite ?to_size_t_small by lia.
  replace (i + 8 + 8) with (i + 16) by lia. reflexivity.
Qed.

Lemma scan_step_preroll fuel i v t :
  0 <= i < data_size - 24 ->
  bytes_at data i 8 = AOPUS_CSD_SEEK_PREROLL_MARKER ->
  scan_markers (S fuel) data data_size i v t =
  scan_markers fuel data data_size (i + 24)
    (set_seekPreRoll (Some (i + 16)) 8
       (set_opusHeadSize (Z.min (opusHeadSize v) i) v))
    (t ++ [Compare i 8; Compare i 8]).
Proof.
  intros Hi Hp.
  assert (Ep : bytes_match data i (firstn 8 AOPUS_CSD_SEEK_PREROLL_MARKER) = true)
    by (apply bytes_match_iff; [reflexivity | exact Hp]).
  assert (Ed : bytes_match data i (firstn 8 AOPUS_CSD_CODEC_DELAY_MARKER) = false).
  { destruct (bytes_match data i (firstn 8 AOPUS_CSD_CODEC_DELAY_MARKER)) eqn:E;
      [|reflexivity].
    apply bytes_match_iff in E; [|reflexivity].
    rewrite Hp in E. vm_compute in E. discriminate. }
  scan_head. taken. change (Z.to_nat 8) with 8%nat.
  rewrite Ed, Ep. rewrite ?to_size_t_small by lia.
  replace (i + 8 + 8) with (i + 16) by lia. rewrite <- app_assoc. reflexivity.
Qed.

(** [j] positions without a marker are passed one by one. *)
Lemma scan_skip fuel : forall (j : nat) i v t,
  0 <= i -> i + Z.of_nat j <= data_size - 24 ->
  (forall k, i <= k < i + Z.of_nat j -> ~ marker_at data k) ->
  exists t',
    scan_markers (j + fuel) data data_size i v t =
    scan_markers fuel data data_size (i + Z.of_nat j) v t'.
Proof.
  induction j as [|j IH]; intros i v t Hi Hj Hno.
  - exists t. replace (i + Z.of_nat 0) with i by lia. reflexivity.
  - change (S j + fuel)%nat with (S (j + fuel)).
    rewrite scan_step_none by (try apply Hno; lia).
    destruct (IH (i + 1) v (t ++ [Compare i 8; Compare i 8]))
      as (t' & E); [lia | lia | intros k Hk; apply Hno; lia |].
    exists t'. rewrite E. f_equal. lia.
Qed.

End ScanSteps.

Lemma GetOpusHeaderBuffers_scan MINSIZE data data_size v0 :
  MINSIZE <= data_size -> 24 <= data_size < 2 ^ 64 ->
  GetOpusHeaderBuffers MINSIZE data data_size v0 [] =
  scan_markers (Z.to_nat (data_size - 24)) data data_size 0
               (mkViews (Some 0) data_size None 0 None 0) [].
Proof.
  intros Hmin Hsz. unfold GetOpusHeaderBuffers. run.
  rewrite Z.geb_leb. destruct (Z.leb_spec MINSIZE data_size); [|lia].
  consts. change (8 + 8 + 8) with 24. rewrite to_size_t_small by lia.
  reflexivity.
Qed.

Lemma mem_of_list_all (P : Z -> bool) d l :
  P d = true -> forallb P l = true -> forall j, P (mem_of_list d l j) = true.
Proof.
  intros Hd Hl j. unfold mem_of_list. destruct (j <? 0); [exact Hd|].
  rewrite forallb_forall in Hl.
  destruct (nth_in_or_default (Z.to_nat j) l d) as [Hin|E].
  - now apply Hl.
  - now rewrite E.
Qed.

(** Bare header split.  On a buffer below the unified minimum, and on a
    buffer of at least 24 bytes in which no marker starts at any offset
    below [data_size - 24], [GetOpusHeaderBuffers] returns the whole buffer
    as the head view and both payload views absent, with size 0. *)
Theorem bare_header_split :
  forall (MINSIZE : Z) (data : mem) (data_size : Z) (v0 : views),
    data_size < 2 ^ 64 ->
    data_size < MINSIZE
    \/ (24 <= data_size
        /\ forall k, 0 <= k < data_size - 24 -> ~ marker_at data k) ->
    exists tr,
      GetOpusHeaderBuffers MINSIZE data data_size v0 [] =
      Some (tt, mkViews (Some 0) data_size None 0 None 0, tr).
Proof.
  intros MINSIZE data data_size v0 Hsz Hcase.
  destruct (Z_lt_le_dec data_size MINSIZE) as [Hlow|Hhigh].
  { rewrite split_below_minimum by exact Hlow. eauto. }
  destruct Hcase as [Hlow|(H24 & Hno)]; [lia|].
  rewrite GetOpusHeaderBuffers_scan by lia.
  destruct (scan_skip data data_size ltac:(lia) 0 (Z.to_nat (data_size - 24)) 0
              (mkViews (Some 0) data_size None 0 None 0) [])
    as (t' & E); [lia | lia | intros k Hk; apply Hno; lia |].
  rewrite Nat.add_0_r in E. rewrite E.
  rewrite scan_exit by lia. eauto.
Qed.

(** The stereo header followed by 81 zero bytes, with a minimum of 67. *)
Lemma bare_header_split_witness :
  exists tr,
    GetOpusHeaderBuffers 67 (mem_of_list 0 padded_stereo_head) 100 views0 [] =
    Some (tt, mkViews (Some 0) 100 None 0 None 0, tr).
Proof.
  apply (bare_header_split 67 (mem_of_list 0 padded_stereo_head) 100 views0);
    [lia|].
  right. split; [lia|]. intros k _. apply no_marker_without_A.
  pose proof (mem_of_list_all (fun x => negb (x =? 65)) 0 padded_stereo_head
                eq_refl eq_refl k) as H.
  apply negb_true_iff, Z.eqb_neq in H. exact H.
Defined.

Lemma head_at_first_marker :
  forall (MINSIZE : Z) (data : mem) (data_size : Z) (v0 : views) (k : Z),
    MINSIZE <= data_size -> 24 <= data_size < 2 ^ 64 ->
    0 <= k < data_size - 24 ->
    (forall j, 0 <= j < k -> ~ marker_at data j) ->
    marker_at data k ->
    exists v tr,
      GetOpusHeaderBuffers MINSIZE data data_size v0 [] = Some (tt, v, tr)
      /\ opusHeadBuf v = Some 0 /\ opusHeadSize v = k.
Proof.
  intros MINSIZE data data_size v0 k Hmin Hsz Hk Hno Hat.
  rewrite GetOpusHeaderBuffers_scan by lia.
  replace (Z.to_nat (data_size - 24))
    with (Z.to_nat k + S (Z.to_nat (data_size - 24 - k - 1)))%nat by lia.
  destruct (scan_skip data data_size Hsz (S (Z.to_nat (data_size - 24 - k - 1)))
              (Z.to_nat k) 0 (mkViews (Some 0) data_size None 0 None 0) [])
    as (t' & E); [lia | lia | intros j Hj; apply Hno; lia |].
  rewrite E. replace (0 + Z.of_nat (Z.to_nat k)) with k by lia.
  assert (Hrest : forall v1 t1,
             opusHeadBuf v1 = Some 0 -> opusHeadSize v1 = k ->
             exists v tr,
               scan_markers (Z.to_nat (data_size - 24 - k - 1)) data data_size
                            (k + 24) v1 t1 = Some (tt, v, tr)
               /\ opusHeadBuf v = Some 0 /\ opusHeadSize v = k).
  { intros v1 t1 Hb Hh.
    destruct (scan_markers_spec data data_size Hsz
                (Z.to_nat (data_size - 24 - k - 1)) (k + 24) v1 t1
                ltac:(lia) ltac:(lia))
      as (v & t2 & Hrun & Hbuf & _ & _ & _ & Hhead).
    exists v, (t1 ++ t2). split; [exact Hrun|]. split; [congruence | lia]. }
  destruct Hat as [Hd|Hp].
  - rewrite scan_step_delay by assumption.
    apply Hrest; [reflexivity|]. cbn. lia.
  - rewrite scan_step_preroll by assumption.
    apply Hrest; [reflexivity|]. cbn. lia.
Qed.

(** The head view ends at the first marker.  When a marker of either kind
    starts at [k], below [data_size - 24], and none starts before it,
    [GetOpusHeaderBuffers] returns a head view of [k] bytes, whatever
    follows. *)
Theorem head_ends_at_first_marker :
  forall (MINSIZE : Z) (data : mem) (data_size : Z) (v0 : views) (k : Z),
    MINSIZE <= data_size -> 24 <= data_size < 2 ^ 64 ->
    0 <= k < data_size - 24 ->
    (forall j, 0 <= j < k -> ~ marker_at data j) ->
    marker_at data k ->
    exists v tr,
      GetOpusHeaderBuffers MINSIZE data data_size v0 [] = Some (tt, v, tr)
      /\ opusHeadBuf v = Some 0 /\ opusHeadSize v = k.
Proof. exact head_at_first_marker. Qed.

(** The 100-byte buffer with its record at offset 76, read over 101 bytes. *)
Lemma head_ends_at_first_marker_witness :
  exists v tr,
    GetOpusHeaderBuffers 67 (mem_of_list 0 trailing_delay_blob) 101 views0 []
    = Some (tt, v, tr)
    /\ opusHeadBuf v = Some 0 /\ opusHeadSize v = 76.
Proof.
  apply (head_ends_at_first_marker 67 (mem_of_list 0 trailing_delay_blob) 101
           views0 76); try lia.
  - intros j Hj. apply no_marker_without_A. unfold mem_of_list.
    destruct (Z.ltb_spec j 0); [lia|].
    pose proof (mem_of_list_all (fun x => negb (x =? 65)) 0
                  (firstn 76 trailing_delay_blob) eq_refl eq_refl j) as Hall.
    apply negb_true_iff, Z.eqb_neq in Hall. unfold mem_of_list in Hall.
    destruct (Z.ltb_spec j 0); [lia|].
    replace (nth (Z.to_nat j) trailing_delay_blob 0)
      with (nth (Z.to_nat j) (firstn 76 trailing_delay_blob) 0); [exact Hall|].
    rewrite <- (firstn_skipn 76 trailing_delay_blob) at 2.
    rewrite app_nth1; [reflexivity|]. rewrite length_firstn.
    change (length trailing_delay_blob) with 100%nat. lia.
  - left. reflexivity.
Defined.

(** ** Writing, splitting and parsing a unified CSD *)

Lemma bytes_at_ext m m' n : forall off,
  (forall j, off <= j < off + Z.of_nat n -> m' j = m j) ->
  bytes_at m' off n = bytes_at m off n.
Proof.
  induction n as [|n IH]; intros off Hag; cbn [bytes_at]; [reflexivity|].
  rewrite (Hag off) by lia. f_equal. apply IH. intros j Hj. apply Hag. lia.
Qed.

Lemma wire_without_A h rate :
  1 <= channels h <= 8 -> fields_without_A h rate ->
  forall x, In x (wire_bytes h rate) -> x <> 65.
Proof.
  intros Hc Hno x Hin Hx. subst x. unfold fields_without_A in Hno.
  assert (Hhead : In 65 (head_bytes h rate) -> False).
  { unfold head_bytes.
    change (bytes_of_string "OpusHead") with [79; 112; 117; 115; 72; 101; 97; 100].
    rewrite (to_uint8_small (channels h)) by lia.
    rewrite (in_app_iff _ _ 65). intros [H|H].
    - simpl in H. repeat (destruct H as [H|H]; [discriminate H|]). exact H.
    - change ([1; channels h] ++ le_bytes 2 (skip_samples h) ++ le_bytes 4 rate
                ++ le_bytes 2 (gain_db h))
        with (1 :: channels h :: (le_bytes 2 (skip_samples h) ++ le_bytes 4 rate
                                    ++ le_bytes 2 (gain_db h))) in H.
      destruct H as [H|[H|H]]; [discriminate H | lia | exact (Hno H)]. }
  unfold wire_bytes in Hin. rewrite Z.gtb_ltb in Hin.
  destruct (Z.ltb_spec 2 (channels h)) as [Hgt|Hle];
    apply in_app_iff in Hin; destruct Hin as [Hin|Hin]; try (exact (Hhead Hin)).
  - destruct (channels_3_to_8 (channels h) ltac:(lia)) as [E|[E|[E|[E|[E|E]]]]];
      rewrite E in Hin; vm_compute in Hin;
      repeat (destruct Hin as [Hin|Hin]; [discriminate Hin|]); exact Hin.
  - destruct Hin as [Hin|[]]. discriminate Hin.
Qed.

(** The memory a successful [WriteOpusHeaders] leaves. *)
Lemma unified_memory MINSIZE h rate size delay preroll m :
  1 <= channels h <= 8 -> MINSIZE <= size -> 48 <= size < 2 ^ 64 ->
  written_length h + 48 < size ->
  exists m0 tr0 m' tr,
    WriteOpusHeader h rate size m [] = Some (written_length h, m0, tr0)
    /\ WriteOpusHeaders MINSIZE h rate size delay preroll m [] =
       Some (written_length h + 48, m', tr)
    /\ (forall j, j < written_length h \/ written_length h + 48 <= j -> m' j = m0 j)
    /\ bytes_at m' 0 (length (wire_bytes h rate)) = wire_bytes h rate
    /\ (forall j, Z.of_nat (length (wire_bytes h rate)) <= j < written_length h ->
                  m' j = 0)
    /\ bytes_at m' (written_length h) 48 = trailer_bytes delay preroll
    /\ (forall j, written_length h + 48 <= j < size -> m' j = 0).
Proof.
  intros Hc Hmin Hsz Hroom.
  pose proof (written_length_range h Hc) as Hlen.
  pose proof (wire_bytes_length h rate Hc) as Hwl.
  assert (Hcap : 21 + channels h <= size).
  { revert Hroom. unfold written_length. rewrite Z.gtb_ltb.
    destruct (Z.ltb_spec 2 (channels h)); lia. }
  assert (Hle : Z.of_nat (length (wire_bytes h rate)) <= written_length h).
  { rewrite Hwl. unfold written_length. destruct (channels h >? 2); lia. }
  destruct (WriteOpusHeader_ok h rate size m [] Hc Hcap) as (m0 & Hrun0 & Hw).
  destruct (WriteOpusHeaders_ok MINSIZE h rate size delay preroll m []
              Hc Hmin Hcap Hsz Hroom)
    as (m1 & m' & tr1 & tr' & Hrun1 & Hrun & _ & Htrail & Hframe).
  rewrite Hrun0 in Hrun1. injection Hrun1 as <- <-.
  destruct Hw as (Hbytes & Hzero & _).
  exists m0. eexists. exists m'. eexists.
  split; [exact Hrun0|]. split; [exact Hrun|]. split; [exact Hframe|].
  split; [|split; [|split; [exact Htrail|]]].
  - rewrite <- Hbytes at 2. apply bytes_at_ext. intros j Hj. apply Hframe. lia.
  - intros j Hj. rewrite Hframe by lia. apply Hzero. lia.
  - intros j Hj. rewrite Hframe by lia. apply Hzero. lia.
Qed.

(** The unified round trip with a byte to spare.  Let a header of 1 to 8
    channels be written by [WriteOpusHeaders], none of the bytes of its
    pre-skip, rate and gain being the letter A.  [GetOpusHeaderBuffers] on
    the written memory, over any length above the returned one and within
    the capacity, returns the header as the head view (its length is the
    length [WriteOpusHeader] returned), the codec-delay view 16 bytes after
    the header and the seek pre-roll view 40 bytes after it, both of 8
    bytes; the bytes of the two views decode to the codec delay and the seek
    pre-roll that were written. *)
Theorem unified_round_trip_with_slack :
  forall (MINSIZE : Z) (h : OpusHeader) (rate size delay preroll : Z)
         (m : mem) (v0 : views) (data_size : Z),
    1 <= channels h <= 8 -> fields_without_A h rate ->
    0 <= delay < 2 ^ 64 -> 0 <= preroll < 2 ^ 64 ->
    48 <= size < 2 ^ 64 -> MINSIZE <= data_size ->
    written_length h + 48 < data_size <= size ->
    exists m' tr v tr',
      WriteOpusHeaders MINSIZE h rate size delay preroll m [] =
        Some (written_length h + 48, m', tr)
      /\ GetOpusHeaderBuffers MINSIZE m' data_size v0 [] = Some (tt, v, tr')
      /\ opusHeadBuf v = Some 0 /\ opusHeadSize v = written_length h
      /\ codecDelayBuf v = Some (written_length h + 16) /\ codecDelaySize v = 8
      /\ seekPreRollBuf v = Some (written_length h + 40) /\ seekPreRollSize v = 8
      /\ le_value (bytes_at m' (written_length h + 16) 8) = delay
      /\ le_value (bytes_at m' (written_length h + 40) 8) = preroll.
Proof.
  intros MINSIZE h rate size delay preroll m v0 data_size
         Hc HnoA Hdelay Hpreroll Hsz Hmin Hds.
  pose proof (written_length_range h Hc) as Hlen.
  destruct (unified_memory MINSIZE h rate size delay preroll m
              Hc ltac:(lia) Hsz ltac:(lia))
    as (m0 & tr0 & m' & tr & _ & Hrun & _ & Hbytes & Hpad & Htrail & Hzero).
  remember (written_length h) as L eqn:HL.
  (* the bytes the scan meets *)
  assert (Hhead : forall k, 0 <= k < L -> ~ marker_at m' k).
  { intros k Hk. apply no_marker_without_A.
    destruct (Z_lt_le_dec k (Z.of_nat (length (wire_bytes h rate)))) as [Hin|Hout].
    - replace k with (Z.of_nat (Z.to_nat k)) by lia.
      rewrite (header_byte _ _ _ (Z.to_nat k) Hbytes) by lia.
      apply (wire_without_A h rate Hc HnoA). apply nth_In. lia.
    - rewrite Hpad by lia. discriminate. }
  assert (Hd : bytes_at m' L 8 = AOPUS_CSD_CODEC_DELAY_MARKER).
  { replace L with (L + Z.of_nat 0) at 1 by lia.
    rewrite (bytes_at_slice _ _ _ _ 0 8 Htrail) by lia. reflexivity. }
  assert (Hp : bytes_at m' (L + 24) 8 = AOPUS_CSD_SEEK_PREROLL_MARKER).
  { replace (L + 24) with (L + Z.of_nat 24) by lia.
    rewrite (bytes_at_slice _ _ _ _ 24 8 Htrail) by lia. reflexivity. }
  assert (Htail : forall k, L + 48 <= k < data_size - 24 -> ~ marker_at m' k).
  { intros k Hk. apply no_marker_without_A. rewrite Hzero by lia. discriminate. }
  exists m', tr.
  (* the scan *)
  assert (H24 : 24 <= data_size < 2 ^ 64) by lia.
  rewrite GetOpusHeaderBuffers_scan by lia.
  assert (Hfin : forall (f : nat) v2 t2,
             data_size - 24 - (L + 48) <= Z.of_nat f ->
             exists t3, scan_markers f m' data_size (L + 48) v2 t2 = Some (tt, v2, t3)).
  { intros f v2 t2 Hf.
    destruct (Z_le_gt_dec (data_size - 24) (L + 48)) as [Hend|Hmore].
    - exists t2. apply scan_exit; lia.
    - replace f with (Z.to_nat (data_size - 24 - (L + 48))
                      + (f - Z.to_nat (data_size - 24 - (L + 48))))%nat by lia.
      destruct (scan_skip m' data_size H24
                  (f - Z.to_nat (data_size - 24 - (L + 48)))%nat
                  (Z.to_nat (data_size - 24 - (L + 48))) (L + 48) v2 t2)
        as (t3 & E3); [lia | lia | intros k Hk; apply Htail; lia |].
      exists t3. rewrite E3. apply scan_exit; lia. }
  replace (Z.to_nat (data_size - 24))
    with (Z.to_nat L + S (S (Z.to_nat (data_size - 24) - Z.to_nat L - 2)))%nat
    by lia.
  destruct (scan_skip m' data_size H24
              (S (S (Z.to_nat (data_size - 24) - Z.to_nat L - 2)))
              (Z.to_nat L) 0 (mkViews (Some 0) data_size None 0 None 0) [])
    as (t1 & E1); [lia | lia | intros k Hk; apply Hhead; lia |].
  rewrite E1. replace (0 + Z.of_nat (Z.to_nat L)) with L by lia.
  rewrite (scan_step_delay m' data_size H24) by (assumption || lia).
  rewrite (scan_step_preroll m' data_size H24) by (assumption || lia).
  replace (L + 24 + 24) with (L + 48) by lia.
  match goal with
  | |- context [scan_markers ?f _ _ _ ?v2 ?t2] =>
      destruct (Hfin f v2 t2 ltac:(lia)) as (t3 & E3)
  end.
  rewrite E3.
  do 2 eexists. split; [exact Hrun|]. split; [reflexivity|].
  cbn [set_seekPreRoll set_codecDelay set_opusHeadSize set_opusHead
       opusHeadBuf opusHeadSize codecDelayBuf codecDelaySize
       seekPreRollBuf seekPreRollSize].
  split; [reflexivity|]. split; [lia|]. split; [reflexivity|].
  split; [reflexivity|]. split; [f_equal; lia|]. split; [reflexivity|].
  split.
  - replace (L + 16) with (L + Z.of_nat 16) by lia.
    rewrite (bytes_at_slice _ _ _ _ 16 8 Htrail) by lia.
    change (firstn 8 (skipn 16 (trailer_bytes delay preroll)))
      with (le_bytes 8 delay).
    rewrite le_value_le_bytes. change (256 ^ Z.of_nat 8) with (2 ^ 64).
    apply Z.mod_small. lia.
  - replace (L + 40) with (L + Z.of_nat 40) by lia.
    rewrite (bytes_at_slice _ _ _ _ 40 8 Htrail) by lia.
    change (firstn 8 (skipn 40 (trailer_bytes delay preroll)))
      with (le_bytes 8 preroll).
    rewrite le_value_le_bytes. change (256 ^ Z.of_nat 8) with (2 ^ 64).
    apply Z.mod_small. lia.
Qed.

(** The stereo record with codec delay 1000 and seek pre-roll 2000, written
    into 128 bytes and split over 68 bytes, one more than the 67 returned. *)
Lemma unified_round_trip_with_slack_witness :
  exists m' tr v tr',
    WriteOpusHeaders 67 stereo 48000 128 1000 2000 stale [] = Some (67, m', tr)
    /\ GetOpusHeaderBuffers 67 m' 68 views0 [] = Some (tt, v, tr')
    /\ opusHeadBuf v = Some 0 /\ opusHeadSize v = 19
    /\ codecDelayBuf v = Some 35 /\ codecDelaySize v = 8
    /\ seekPreRollBuf v = Some 59 /\ seekPreRollSize v = 8
    /\ le_value (bytes_at m' 35 8) = 1000
    /\ le_value (bytes_at m' 59 8) = 2000.
Proof.
  apply (unified_round_trip_with_slack 67 stereo 48000 128 1000 2000 stale views0 68);
    try lia; vm_compute; intuition (first [discriminate | reflexivity]).
Defined.

(** Parsing the head of a unified CSD.  After a successful
    [WriteOpusHeaders], [ParseOpusHeader] on the written memory over the
    header length succeeds and yields the channel count, the pre-skip and
    the gain of the record written, with the mapping fields the writer
    chose: the two trailer records change nothing the parser reads. *)
Theorem parse_of_unified_head :
  forall (MINSIZE : Z) (h : OpusHeader) (rate size delay preroll : Z)
         (m : mem) (h0 : OpusHeader),
    1 <= channels h <= 8 ->
    0 <= skip_samples h < 2 ^ 16 -> - 2 ^ 15 <= gain_db h < 2 ^ 15 ->
    MINSIZE <= size -> 48 <= size < 2 ^ 64 -> written_length h + 48 < size ->
    length (stream_map h0) = 8%nat ->
    exists m' tr h' tr',
      WriteOpusHeaders MINSIZE h rate size delay preroll m [] =
        Some (written_length h + 48, m', tr)
      /\ ParseOpusHeader m' (written_length h) h0 [] = Some (true, h', tr')
      /\ channels h' = channels h
      /\ skip_samples h' = skip_samples h
      /\ gain_db h' = gain_db h
      /\ writer_mapping h h'.
Proof.
  intros MINSIZE h rate size delay preroll m h0 Hc Hskip Hgain Hmin Hsz Hroom Hlen0.
  destruct (unified_memory MINSIZE h rate size delay preroll m Hc Hmin Hsz Hroom)
    as (m0 & tr0 & m' & tr & Hrun0 & Hrun & Hframe & _).
  assert (Hcap : 21 + channels h <= size).
  { revert Hroom. unfold written_length. rewrite Z.gtb_ltb.
    destruct (Z.ltb_spec 2 (channels h)); lia. }
  destruct (write_then_parse h rate size m h0 Hc Hskip Hgain Hcap Hlen0)
    as (n & m1 & tr1 & h' & tr' & Hw & Hp & E1 & E2 & E3 & Hmap).
  rewrite Hrun0 in Hw. injection Hw as <- <- <-.
  exists m', tr, h', tr'. split; [exact Hrun|]. split; [|auto].
  rewrite <- Hp. apply parse_ext. intros j Hj _. apply Hframe. lia.
Qed.

(** The six-channel record in a unified CSD of 128 bytes. *)
Lemma parse_of_unified_head_witness :
  exists m' tr h' tr',
    WriteOpusHeaders 67 six_channels 48000 128 1000 2000 stale [] = Some (76, m', tr)
    /\ ParseOpusHeader m' 28 header0 [] = Some (true, h', tr')
    /\ channels h' = 6 /\ skip_samples h' = 312 /\ gain_db h' = -3
    /\ writer_mapping six_channels h'.
Proof.
  apply (parse_of_unified_head 67 six_channels 48000 128 1000 2000 stale header0);
    try lia; vm_compute; intuition (first [discriminate | reflexivity]).
Defined.

(** A marker spelled by the header fields.  Pre-skip, sample rate and gain
    fill offsets 10 to 17 of the header with bytes the caller chooses.  When
    those eight bytes are one of the two markers, [GetOpusHeaderBuffers] on
    the unified CSD that [WriteOpusHeaders] produced, over the returned
    length or any longer one within the capacity, ends the head view at
    offset 10, inside the header: the 10 bytes are too few for
    [ParseOpusHeader]. *)
Theorem marker_in_header_fields :
  forall (MINSIZE : Z) (h : OpusHeader) (rate size delay preroll : Z)
         (m : mem) (v0 : views) (data_size : Z),
    1 <= channels h <= 8 ->
    le_bytes 2 (skip_samples h) ++ le_bytes 4 rate ++ le_bytes 2 (gain_db h)
      = AOPUS_CSD_CODEC_DELAY_MARKER
    \/ le_bytes 2 (skip_samples h) ++ le_bytes 4 rate ++ le_bytes 2 (gain_db h)
      = AOPUS_CSD_SEEK_PREROLL_MARKER ->
    48 <= size < 2 ^ 64 -> MINSIZE <= data_size ->
    written_length h + 48 <= data_size <= size -> written_length h + 48 < size ->
    exists m' tr v tr',
      WriteOpusHeaders MINSIZE h rate size delay preroll m [] =
        Some (written_length h + 48, m', tr)
      /\ GetOpusHeaderBuffers MINSIZE m' data_size v0 [] = Some (tt, v, tr')
      /\ opusHeadSize v = 10
      /\ forall h0, ParseOpusHeader m' (opusHeadSize v) h0 [] =
                    Some (false, h0, [Log HeaderSizeTooSmall]).
Proof.
  intros MINSIZE h rate size delay preroll m v0 data_size
         Hc Hspell Hsz Hmin Hds Hroom.
  pose proof (written_length_range h Hc) as Hlen.
  pose proof (wire_bytes_length h rate Hc) as Hwl.
  destruct (unified_memory MINSIZE h rate size delay preroll m
              Hc ltac:(lia) Hsz Hroom)
    as (m0 & tr0 & m' & tr & _ & Hrun & _ & Hbytes & _).
  assert (Hn : (19 <= length (wire_bytes h rate))%nat)
    by (destruct (channels h >? 2); lia).
  assert (Hfirst : bytes_at m' 0 10 =
                   [79; 112; 117; 115; 72; 101; 97; 100; 1; channels h]).
  { change 0 with (0 + Z.of_nat 0) at 1.
    rewrite (bytes_at_slice _ _ _ _ 0 10 Hbytes) by lia.
    unfold wire_bytes, head_bytes. rewrite (to_uint8_small (channels h)) by lia.
    destruct (channels h >? 2); reflexivity. }
  assert (Hfields : bytes_at m' 10 8 =
                    le_bytes 2 (skip_samples h) ++ le_bytes 4 rate
                      ++ le_bytes 2 (gain_db h)).
  { change 10 with (0 + Z.of_nat 10) at 1.
    rewrite (bytes_at_slice _ _ _ _ 10 8 Hbytes) by lia.
    unfold wire_bytes. destruct (channels h >? 2); reflexivity. }
  assert (Hat : marker_at m' 10).
  { unfold marker_at. rewrite Hfields. exact Hspell. }
  assert (Hno : forall j, 0 <= j < 10 -> ~ marker_at m' j).
  { intros j Hj. apply no_marker_without_A.
    replace j with (Z.of_nat (Z.to_nat j)) by lia.
    rewrite (header_byte _ _ _ (Z.to_nat j) Hfirst) by lia.
    destruct (Z.to_nat j) as [|[|[|[|[|[|[|[|[|[|k]]]]]]]]]] eqn:E;
      cbn [nth]; lia. }
  destruct (head_at_first_marker MINSIZE m' data_size v0 10
              Hmin ltac:(lia) ltac:(lia) Hno Hat)
    as (v & tr' & Hsplit & _ & Hhead).
  exists m', tr, v, tr'. split; [exact Hrun|]. split; [exact Hsplit|].
  split; [exact Hhead|].
  intros h0. rewrite Hhead. apply (parse_too_small m' 10 h0 []). lia.
Qed.

(** The record whose fields spell AOPUSDLY, split over the 67 bytes returned. *)
Lemma marker_in_header_fields_witness :
  exists m' tr v tr',
    WriteOpusHeaders 67 spelling_header spelling_rate 128 1000 2000 stale [] =
      Some (67, m', tr)
    /\ GetOpusHeaderBuffers 67 m' 67 views0 [] = Some (tt, v, tr')
    /\ opusHeadSize v = 10
    /\ forall h0, ParseOpusHeader m' (opusHeadSize v) h0 [] =
                  Some (false, h0, [Log HeaderSizeTooSmall]).
Proof.
  apply (marker_in_header_fields 67 spelling_header spelling_rate 128 1000 2000
           stale views0 67);
    try lia; try (left; reflexivity);
    vm_compute; intuition (first [discriminate | reflexivity]).
Defined.

(** ** What GetOpusHeaderBuffers touches *)

Lemma compared_ranges_app a b :
  compared_ranges (a ++ b) = compared_ranges a ++ compared_ranges b.
Proof. unfold compared_ranges. apply flat_map_app. Qed.

Section ScanRanges.

Variables (data : mem) (data_size : Z).
Hypothesis Hsize : 24 <= data_size < 2 ^ 64.

Lemma scan_events_step i j t :
  i < data_size - 24 -> scan_events data_size (i + j) t ->
  0 < j -> forall e, e = [Compare i 8] \/ e = [Compare i 8; Compare i 8] ->
  scan_events data_size i (e ++ t).
Proof.
  intros Hi (Hr & Hw & Hm & Hc) Hj e He.
  unfold scan_events.
  rewrite read_offsets_app, write_offsets_app, messages_app, compared_ranges_app.
  rewrite Hr, Hw, Hm.
  destruct He as [-> | ->]; cbn;
    (split; [reflexivity|]; split; [reflexivity|]; split; [reflexivity|]);
    intros o n Ho;
    repeat (destruct Ho as [Ho|Ho]; [injection Ho as <- <-; lia|]);
    apply Hc in Ho; lia.
Qed.

Lemma scan_compared_ranges : forall (fuel : nat) (i : Z) (v : views) (t : trace),
  0 <= i -> data_size - 24 - i <= Z.of_nat fuel ->
  exists v' t',
    scan_markers fuel data data_size i v t = Some (tt, v', t ++ t')
    /\ scan_events data_size i t'.
Proof.
  assert (Hnil : forall i, scan_events data_size i []).
  { intros i. repeat split; try reflexivity; destruct H. }
  induction fuel as [|fuel IH]; intros i v t Hi Hfuel.
  - rewrite scan_exit by lia. exists v, []. rewrite app_nil_r. split; [reflexivity|].
    apply Hnil.
  - destruct (Z_le_gt_dec (data_size - 24) i) as [Hend|Hin].
    { rewrite scan_exit by lia. exists v, []. rewrite app_nil_r.
      split; [reflexivity | apply Hnil]. }
    cbn [scan_markers]. consts. change (8 + 8 + 8) with 24.
    rewrite ?to_size_t_small by lia. taken. change (Z.to_nat 8) with 8%nat.
    rewrite ?to_size_t_small by lia.
    destruct (bytes_match data i (firstn 8 AOPUS_CSD_CODEC_DELAY_MARKER)).
    + match goal with
      | |- context [scan_markers fuel data data_size ?j ?v1 ?t1] =>
          destruct (IH j v1 t1 ltac:(lia) ltac:(lia)) as (v' & t' & Hrun & Hev)
      end.
      exists v', ([Compare i 8] ++ t').
      split; [rewrite Hrun, <- !app_assoc; reflexivity|].
      apply (scan_events_step i 24); try lia; auto.
    + destruct (bytes_match data i (firstn 8 AOPUS_CSD_SEEK_PREROLL_MARKER)).
      * match goal with
        | |- context [scan_markers fuel data data_size ?j ?v1 ?t1] =>
            destruct (IH j v1 t1 ltac:(lia) ltac:(lia)) as (v' & t' & Hrun & Hev)
        end.
        exists v', ([Compare i 8; Compare i 8] ++ t').
        split; [rewrite Hrun, <- !app_assoc; reflexivity|].
        apply (scan_events_step i 24); try lia; auto.
      * match goal with
        | |- context [scan_markers fuel data data_size ?j ?v1 ?t1] =>
            destruct (IH j v1 t1 ltac:(lia) ltac:(lia)) as (v' & t' & Hrun & Hev)
        end.
        exists v', ([Compare i 8; Compare i 8] ++ t').
        split; [rewrite Hrun, <- !app_assoc; reflexivity|].
        apply (scan_events_step i 1); try lia; auto.
Qed.

End ScanRanges.

(** What the splitter touches.  On every buffer of at least 24 bytes, and on
    every buffer below the unified minimum, [GetOpusHeaderBuffers] does
    nothing to memory but compare: each comparison covers 8 bytes that lie
    inside the buffer, and none reaches the last 16 bytes of it. *)
Theorem split_compares_in_bounds :
  forall (MINSIZE : Z) (data : mem) (data_size : Z) (v0 : views),
    0 <= data_size < 2 ^ 64 -> data_size < MINSIZE \/ 24 <= data_size ->
    exists v tr,
      GetOpusHeaderBuffers MINSIZE data data_size v0 [] = Some (tt, v, tr)
      /\ read_offsets tr = [] /\ write_offsets tr = [] /\ messages tr = []
      /\ forall o n, In (o, n) (compared_ranges tr) ->
           n = 8 /\ 0 <= o /\ o + n <= data_size - 16.
Proof.
  intros MINSIZE data data_size v0 Hsz Hcase.
  destruct (Z_lt_le_dec data_size MINSIZE) as [Hlow|Hhigh].
  { rewrite split_below_minimum by exact Hlow. do 2 eexists.
    split; [reflexivity|]. repeat split; try reflexivity; destruct H. }
  assert (H24 : 24 <= data_size < 2 ^ 64) by lia.
  rewrite GetOpusHeaderBuffers_scan by lia.
  destruct (scan_compared_ranges data data_size H24 (Z.to_nat (data_size - 24)) 0
              (mkViews (Some 0) data_size None 0 None 0) [] ltac:(lia) ltac:(lia))
    as (v & t' & Hrun & Hr & Hw & Hm & Hc).
  exists v, t'. split; [exact Hrun|].
  split; [exact Hr|]. split; [exact Hw|]. split; [exact Hm|].
  intros o n Hin. apply Hc in Hin. lia.
Qed.

(** The 100-byte buffer with a trailing record. *)
Lemma split_compares_in_bounds_witness :
  exists v tr,
    GetOpusHeaderBuffers 67 (mem_of_list 0 trailing_delay_blob) 100 views0 []
    = Some (tt, v, tr)
    /\ read_offsets tr = [] /\ write_offsets tr = [] /\ messages tr = []
    /\ forall o n, In (o, n) (compared_ranges tr) ->
         n = 8 /\ 0 <= o /\ o + n <= 100 - 16.
Proof.
  apply (split_compares_in_bounds 67 (mem_of_list 0 trailing_delay_blob) 100 views0);
    lia.
Defined.

(** ** The guards of ReadLE16 and WriteOpusHeader at their edges *)

(** The guard of [ReadLE16].  For an offset below 2^32 - 1 the function
    returns a 16-bit value, leaves the state alone, writes and logs nothing,
    and reads inside the buffer only.  At the offset 2^32 - 1 the index of the
    second byte wraps to 0 in 32 bits, so on a non-empty buffer the guard
    passes and the bytes at 2^32 - 1 and at 0 are read. *)
Theorem ReadLE16_guard :
  forall (S : Type) (data : mem) (data_size read_offset : Z) (s : S),
    0 <= read_offset < 2 ^ 32 -> 0 <= data_size ->
    exists r tr,
      ReadLE16 data data_size read_offset s [] = Some (r, s, tr)
      /\ 0 <= r < 2 ^ 16
      /\ write_offsets tr = [] /\ messages tr = []
      /\ (read_offset < 2 ^ 32 - 1 ->
            forall o, In o (read_offsets tr) -> 0 <= o < data_size)
      /\ (read_offset = 2 ^ 32 - 1 -> 0 < data_size ->
            read_offsets tr = [2 ^ 32 - 1; 0]).
Proof.
  intros S data data_size off s Hoff Hsize.
  destruct (Z_le_gt_dec data_size (to_uint32 (off + 1))) as [Hout|Hin].
  - rewrite ReadLE16_out by exact Hout. exists 0, [].
    split; [reflexivity|]. split; [lia|]. split; [reflexivity|].
    split; [reflexivity|]. split.
    + intros _ o [].
    + intros -> Hpos. change (to_uint32 (2 ^ 32 - 1 + 1)) with 0 in Hout. lia.
  - rewrite ReadLE16_in by lia.
    exists (le16_at data off), [Read off; Read (to_uint32 (off + 1))].
    split; [reflexivity|]. split; [apply le16_at_range|].
    split; [reflexivity|]. split; [reflexivity|]. split.
    + intros Hlt o Ho.
      assert (E : to_uint32 (off + 1) = off + 1)
        by (unfold to_uint32; apply Z.mod_small; lia).
      rewrite E in Ho, Hin. cbn in Ho. lia.
    + intros -> _. reflexivity.
Qed.

(** The pre-skip of the stereo header. *)
Lemma ReadLE16_guard_witness :
  exists r tr,
    ReadLE16 (mem_of_list 0 stereo_head) 19 10 header0 [] = Some (r, header0, tr)
    /\ 0 <= r < 2 ^ 16
    /\ write_offsets tr = [] /\ messages tr = []
    /\ (10 < 2 ^ 32 - 1 ->
          forall o, In o (read_offsets tr) -> 0 <= o < 19)
    /\ (10 = 2 ^ 32 - 1 -> 0 < 19 -> read_offsets tr = [2 ^ 32 - 1; 0]).
Proof.
  apply (ReadLE16_guard OpusHeader (mem_of_list 0 stereo_head) 19 10 header0); lia.
Defined.

(** [WriteOpusHeader] trusts the channel count.  Its only test compares the
    capacity with 21 + channels; for a count of at most 2, zero and the
    negative counts down to -21 included, a capacity that passes the test
    gives a return of 19, the low byte of the count at offset 9 and a write
    to each of the offsets 0 to 18, whatever the capacity is.  For a count
    below -2 the capacity can be below 19, and then offsets at and beyond
    the capacity are written. *)
Theorem writer_trusts_channel_count :
  forall (h : OpusHeader) (rate size : Z) (m : mem),
    -21 <= channels h <= 2 -> 0 <= size -> 21 + channels h <= size ->
    exists m' tr,
      WriteOpusHeader h rate size m [] = Some (19, m', tr)
      /\ bytes_at m' 0 19 = head_bytes h rate ++ [0]
      /\ m' 9 = channels h mod 256
      /\ messages tr = []
      /\ (forall o, 0 <= o < 19 -> In o (write_offsets tr)).
Proof.
  intros h rate size m Hc H0 Hs.
  destruct (WriteOpusHeader_default h rate size m [] ltac:(lia)
              ltac:(rewrite to_size_t_small; lia)) as (m' & Hrun & Hb & _).
  exists m'. eexists. split; [exact Hrun|]. split; [exact Hb|].
  split; [|split].
  - pose proof (nth_bytes_at m' 19 0 9 ltac:(lia)) as Hn.
    rewrite Hb in Hn. simpl in Hn. symmetry. exact Hn.
  - rewrite app_nil_l. apply messages_map_Write.
  - intros o Ho. rewrite app_nil_l, write_offsets_map_Write.
    apply in_or_app. right. apply in_zseq. lia.
Qed.

(** A count of -21 and no capacity at all: all 19 offsets are written. *)
Lemma writer_trusts_channel_count_witness :
  exists m' tr,
    WriteOpusHeader negative_channels 48000 0 stale [] = Some (19, m', tr)
    /\ bytes_at m' 0 19 = head_bytes negative_channels 48000 ++ [0]
    /\ m' 9 = channels negative_channels mod 256
    /\ messages tr = []
    /\ (forall o, 0 <= o < 19 -> In o (write_offsets tr)).
Proof.
  apply (writer_trusts_channel_count negative_channels 48000 0 stale);
    cbn [channels negative_channels]; lia.
Defined.

(** The stream map [WriteOpusHeader] stores names every stream once.  For 3
    to 8 channels the [channels] bytes from offset 21 hold no value twice,
    and hold exactly the values 0 to channels - 1: each row of
    [kOpusChannelMap], cut to its channel count, is a permutation. *)
Theorem written_stream_map_permutes :
  forall (h : OpusHeader) (rate size : Z) (m : mem),
    3 <= channels h <= 8 -> 21 + channels h <= size ->
    exists m' tr,
      WriteOpusHeader h rate size m [] = Some (22 + channels h, m', tr)
      /\ NoDup (bytes_at m' 21 (Z.to_nat (channels h)))
      /\ (forall b, In b (bytes_at m' 21 (Z.to_nat (channels h)))
                    <-> 0 <= b < channels h).
Proof.
  intros h rate size m Hc Hs.
  destruct (WriteOpusHeader_mapped h rate size m [] Hc Hs) as (m' & Hrun & Hw).
  exists m'. eexists. split; [exact Hrun|].
  pose proof (mapped_header_length h rate Hc) as Hlen.
  assert (Hmap : bytes_at m' 21 (Z.to_nat (channels h)) = canonical_map (channels h)).
  { change 21 with (Z.of_nat 21) at 1.
    rewrite (written_slice _ _ _ _ 21 (Z.to_nat (channels h)) Hw)
      by (rewrite Hlen; lia).
    destruct (channels_3_to_8 _ Hc) as [E|[E|[E|[E|[E|E]]]]]; rewrite E;
      reflexivity. }
  rewrite Hmap.
  destruct (channels_3_to_8 _ Hc) as [E|[E|[E|[E|[E|E]]]]]; rewrite E;
    match goal with
    | |- context [canonical_map ?c] =>
        let l := eval vm_compute in (canonical_map c) in
        change (canonical_map c) with l
    end;
    (split;
     [ repeat constructor; cbn; intuition discriminate
     | intros b; cbn; lia ]).
Qed.

(** The six-channel record written into 64 bytes. *)
Lemma written_stream_map_permutes_witness :
  exists m' tr,
    WriteOpusHeader six_channels 48000 64 stale [] = Some (28, m', tr)
    /\ NoDup (bytes_at m' 21 6)
    /\ (forall b, In b (bytes_at m' 21 6) <-> 0 <= b < 6).
Proof.
  apply (written_stream_map_permutes six_channels 48000 64 stale);
    cbn [channels six_channels]; lia.
Defined.
